(** * League core: standings calculator and fixture generator

    A shallow embedding of [models.py] (the [Team] and [Match] models,
    [Match.save], [TeamStandingsManager.get_standings]) and of the management
    command [generate_fixtures.py] ([Command.handle]), followed by the
    properties of the two procedures.

    Python integers are [Z]; lists are [list]; the bye seat ([None] in the
    seat list) is [None : option Team].  The relational store, the standard
    output of the command and the state of the connection form the [World]
    that the effectful code threads; an exception is a [Raise] result that
    keeps every effect performed before it. *)

From Stdlib Require Import String.
From Stdlib Require Import ZArith List Bool Lia Sorted Permutation.
Import ListNotations.

Local Open Scope Z_scope.

(** ** Stable sorting *)

(** [list.sort] and the [ORDER BY] of a queryset are stable: elements that
    compare equal keep their relative order.  [le x y] reads "[x] may stand
    before [y]". *)
Section StableSort.
Context {A : Type} (le : A -> A -> bool).

Fixpoint insert_sorted (x : A) (l : list A) : list A :=
  match l with
  | [] => [x]
  | y :: l' => if le x y then x :: l else y :: insert_sorted x l'
  end.

Definition stable_sort (l : list A) : list A :=
  fold_right insert_sorted [] l.

Definition equiv_by (a x : A) : bool := le a x && le x a.
End StableSort.

(** ** Data model (models.py) *)

(** [Team]: the primary key and the display name; the remaining columns
    (slug, contacts, the legacy counters) are read by neither procedure. *)
Record Team := mkTeam { team_pk : Z; team_name : string }.

(** [Model.__eq__]: two instances of a model are equal when their primary
    keys are. *)
Definition Team_eq (a b : Team) : bool := team_pk a =? team_pk b.

(** A [datetime]: the proleptic day number of its date, its wall-clock time
    and whether it carries a time zone. *)
Record datetime := mkDatetime
  { dt_day : Z; dt_hour : Z; dt_minute : Z; dt_aware : bool }.

Definition datetime_combine (day hour minute : Z) : datetime :=
  mkDatetime day hour minute false.

Definition make_aware (d : datetime) : datetime :=
  mkDatetime (dt_day d) (dt_hour d) (dt_minute d) true.

(** [d + datetime.timedelta(days=n)]. *)
Definition add_days (d : datetime) (n : Z) : datetime :=
  mkDatetime (dt_day d + n) (dt_hour d) (dt_minute d) (dt_aware d).

Definition datetime_le (a b : datetime) : bool :=
  (dt_day a <? dt_day b)
  || ((dt_day a =? dt_day b)
      && ((dt_hour a <? dt_hour b)
          || ((dt_hour a =? dt_hour b) && (dt_minute a <=? dt_minute b)))).

(** [Match]: [match_pk] is [None] until the instance has been inserted.
    [venue] and [referee] are left out: nothing below reads or writes them. *)
Record Match := mkMatch
  { match_pk : option Z;
    home_team : Team;
    away_team : Team;
    match_date : datetime;
    home_score : Z;
    away_score : Z;
    is_played : bool }.

(** [Match(home_team=.., away_team=.., match_date=.., is_played=..)]: the
    scores take their default, 0. *)
Definition new_Match (home away : Team) (date : datetime) (played : bool)
  : Match :=
  mkMatch None home away date 0 0 played.

Definition set_is_played (m : Match) (b : bool) : Match :=
  mkMatch (match_pk m) (home_team m) (away_team m) (match_date m)
          (home_score m) (away_score m) b.

Definition set_match_pk (m : Match) (k : option Z) : Match :=
  mkMatch k (home_team m) (away_team m) (match_date m)
          (home_score m) (away_score m) (is_played m).

(** ** The world: store, standard output, connection *)

Record DB := mkDB { team_table : list Team; match_table : list Match }.

Inductive Style := PLAIN | NOTICE | SUCCESS | WARNING | ERROR.

(** One constructor per [self.stdout.write] of the command, carrying the
    values its f-string interpolates ([strftime('%Y-%m-%d')] shows the date
    only). *)
Inductive Text :=
| StartingGeneration
| StartDateSetTo (day : Z)
| MatchDaysSeparatedBy (days : Z)
| ExistingMatchesFound
| GeneratingFirstLeg (num_actual_teams : nat)
| RoundHeader (round : nat) (day : Z)
| Fixture (home away : string)
| GeneratingSecondLeg
| ReturnFixture (home away : string)
| Committing (total_matches : nat)
| Progress (count : nat) (total_matches : nat)
| CriticalSaveError (e : string)
| SuccessfullyCreated (count : nat).

Record World := mkWorld
  { db : DB; stdout : list (Style * Text); connection_open : bool }.

Inductive exn :=
| CommandError (msg : string)
| IndexError
| DatabaseError (msg : string).

(** [str(e)]. *)
Definition exn_str (e : exn) : string :=
  match e with
  | CommandError msg => msg
  | IndexError => "list index out of range"
  | DatabaseError msg => msg
  end.

Inductive result (A : Type) :=
| Ok (a : A)
| Raise (e : exn).
Arguments Ok {A} a.
Arguments Raise {A} e.

Definition M (A : Type) : Type := World -> result A * World.

Definition ret {A} (a : A) : M A := fun w => (Ok a, w).

Definition bind {A B} (c : M A) (k : A -> M B) : M B :=
  fun w => match c w with
           | (Ok a, w') => k a w'
           | (Raise e, w') => (Raise e, w')
           end.

Definition raise {A} (e : exn) : M A := fun w => (Raise e, w).

(** [try: body  except Exception as e: handler e]. *)
Definition try_except {A} (body : M A) (handler : exn -> M A) : M A :=
  fun w => match body w with
           | (Ok a, w') => (Ok a, w')
           | (Raise e, w') => handler e w'
           end.

Notation "x <- c ;; k" := (bind c (fun x => k))
  (at level 61, c at next level, right associativity).
Notation "c ;;; k" := (bind c (fun _ => k))
  (at level 61, right associativity).

(** [for x in xs: s = body x s]. *)
Fixpoint for_each {A S} (xs : list A) (body : A -> S -> M S) (s : S) : M S :=
  match xs with
  | [] => ret s
  | x :: xs' => s' <- body x s ;; for_each xs' body s'
  end.

(** [range(n)]; empty when [n <= 0]. *)
Definition range (n : Z) : list nat := seq 0 (Z.to_nat n).

(** [l[i]] for an index [i >= 0]. *)
Definition index {A} (l : list A) (i : nat) : M A :=
  match nth_error l i with
  | Some x => ret x
  | None => raise IndexError
  end.

Definition write (s : Style) (t : Text) : M unit :=
  fun w => (Ok tt, mkWorld (db w) (stdout w ++ [(s, t)]) (connection_open w)).

Definition connection_close : M unit :=
  fun w => (Ok tt, mkWorld (db w) (stdout w) false).

(** *** Querysets *)

(** [Team.objects.all().order_by('pk')]. *)
Definition Team_order_by_pk (d : DB) : list Team :=
  stable_sort (fun a b => team_pk a <=? team_pk b) (team_table d).

(** [Team.standings_manager.get_queryset().all()]: [Team.Meta.ordering] is
    [['name']]. *)
Definition Team_default_order (d : DB) : list Team :=
  stable_sort (fun a b => String.leb (team_name a) (team_name b))
              (team_table d).

(** [Match.objects...]: [Match.Meta.ordering] is [['match_date']]. *)
Definition Match_default_order (d : DB) : list Match :=
  stable_sort (fun a b => datetime_le (match_date a) (match_date b))
              (match_table d).

(** [Match.objects.filter(home_team=team, is_played=True) |
     Match.objects.filter(away_team=team, is_played=True)]. *)
Definition played_by (team : Team) (m : Match) : bool :=
  (Team_eq (home_team m) team && is_played m)
  || (Team_eq (away_team m) team && is_played m).

Definition Match_all_played (team : Team) (d : DB) : list Match :=
  filter (played_by team) (Match_default_order d).

Definition query {A} (q : DB -> A) : M A := fun w => (Ok (q (db w)), w).

(** *** [Model.save] *)

Definition pk_or_zero (m : Match) : Z :=
  match match_pk m with Some k => k | None => 0 end.

(** The key an auto-incrementing column gives the next inserted row. *)
Definition fresh_pk (table : list Match) : Z :=
  1 + fold_right Z.max 0 (map pk_or_zero table).

Definition has_pk (k : Z) (m : Match) : bool :=
  match match_pk m with Some k' => k' =? k | None => false end.

Definition update_row (row : Match) (k : Z) (table : list Match)
  : list Match :=
  map (fun m => if has_pk k m then row else m) table.

Section Storage.
(** The storage collaborator decides whether writing a row succeeds in a
    given state of the store; [Some msg] is the error it raises. *)
Variable db_fault : DB -> Match -> option string.

(** [super().save()]: an instance without primary key is inserted under a
    fresh one; one with a key updates its row, or is inserted under that
    key when there is none. *)
Definition Model_save (self : Match) : M Match :=
  fun w =>
    match db_fault (db w) self with
    | Some msg => (Raise (DatabaseError msg), w)
    | None =>
        let table := match_table (db w) in
        let '(row, table') :=
          match match_pk self with
          | None =>
              let row := set_match_pk self (Some (fresh_pk table)) in
              (row, table ++ [row])
          | Some k =>
              if existsb (has_pk k) table
              then (self, update_row self k table)
              else (self, table ++ [self])
          end in
        (Ok row,
         mkWorld (mkDB (team_table (db w)) table')
                 (stdout w) (connection_open w))
    end.

(** Lines 103-106 of [Match.save]: the assignment to [self.is_played]. *)
Definition Match_set_played_from_scores (self : Match) : Match :=
  if (home_score self >? 0) || (away_score self >? 0)
  then set_is_played self true
  else set_is_played self false.

Definition Match_save (self : Match) : M Match :=
  Model_save (Match_set_played_from_scores self).
End Storage.

(** ** Standings calculator (models.py, TeamStandingsManager) *)

(** The [stats] dictionary of [get_standings]: its keys are fixed, so it is a
    record. *)
Record Stats := mkStats
  { s_team : Team;
    s_P : Z; s_W : Z; s_D : Z; s_L : Z;
    s_GF : Z; s_GA : Z; s_GD : Z; s_Pts : Z }.

(** The body of [for match in all_played]. *)
Definition tally (team : Team) (stats : Stats) (m : Match) : Stats :=
  let '(gf, ga) :=
    if Team_eq (home_team m) team
    then (home_score m, away_score m)
    else (away_score m, home_score m) in
  let gF := s_GF stats + gf in
  let gA := s_GA stats + ga in
  if gf >? ga then
    mkStats (s_team stats) (s_P stats) (s_W stats + 1) (s_D stats)
            (s_L stats) gF gA (s_GD stats) (s_Pts stats + 3)
  else if gf =? ga then
    mkStats (s_team stats) (s_P stats) (s_W stats) (s_D stats + 1)
            (s_L stats) gF gA (s_GD stats) (s_Pts stats + 1)
  else
    mkStats (s_team stats) (s_P stats) (s_W stats) (s_D stats)
            (s_L stats + 1) gF gA (s_GD stats) (s_Pts stats).

Definition set_GD (stats : Stats) : Stats :=
  mkStats (s_team stats) (s_P stats) (s_W stats) (s_D stats) (s_L stats)
          (s_GF stats) (s_GA stats) (s_GF stats - s_GA stats) (s_Pts stats).

(** The row of one team, from the number of its played matches and the
    matches themselves. *)
Definition team_row (team : Team) (count : nat) (all_played : list Match)
  : Stats :=
  set_GD (fold_left (tally team) all_played
                    (mkStats team (Z.of_nat count) 0 0 0 0 0 0 0)).

(** [key=lambda x: (x['Pts'], x['GD'], x['GF'])]. *)
Definition sort_key (x : Stats) : Z * Z * Z := (s_Pts x, s_GD x, s_GF x).

(** Tuples compare lexicographically. *)
Definition tuple_le (a b : Z * Z * Z) : bool :=
  let '(a1, a2, a3) := a in
  let '(b1, b2, b3) := b in
  (a1 <? b1) || ((a1 =? b1) && ((a2 <? b2) || ((a2 =? b2) && (a3 <=? b3)))).

Definition tuple_eqb (a b : Z * Z * Z) : bool :=
  let '(a1, a2, a3) := a in
  let '(b1, b2, b3) := b in
  (a1 =? b1) && (a2 =? b2) && (a3 =? b3).

(** The same order as a proposition. *)
Definition lex_le (a b : Z * Z * Z) : Prop :=
  let '(a1, a2, a3) := a in
  let '(b1, b2, b3) := b in
  a1 < b1 \/ (a1 = b1 /\ (a2 < b2 \/ (a2 = b2 /\ a3 <= b3))).

(** [l.sort(key=key, reverse=True)]: descending keys, equal keys in their
    original order. *)
Definition sort_reverse {A} (key : A -> Z * Z * Z) (l : list A) : list A :=
  stable_sort (fun x y => tuple_le (key y) (key x)) l.

Definition standings_row (team : Team) (standings : list Stats)
  : M (list Stats) :=
  count <- query (fun d => length (Match_all_played team d)) ;;
  all_played <- query (Match_all_played team) ;;
  ret (standings ++ [team_row team count all_played]).

Definition get_standings : M (list Stats) :=
  teams <- query Team_default_order ;;
  standings <- for_each teams standings_row [] ;;
  ret (sort_reverse sort_key standings).

(** The row that [get_standings] builds for [team] over the store [d], and
    the rows of all teams in the order the teams arrive, before sorting. *)
Definition row_of (d : DB) (team : Team) : Stats :=
  team_row team (length (Match_all_played team d)) (Match_all_played team d).

Definition unsorted_rows (d : DB) : list Stats :=
  map (row_of d) (Team_default_order d).

Definition zero_row (r : Stats) : Prop :=
  s_P r = 0 /\ s_W r = 0 /\ s_D r = 0 /\ s_L r = 0 /\
  s_GF r = 0 /\ s_GA r = 0 /\ s_GD r = 0 /\ s_Pts r = 0.

(** ** Fixture generator (generate_fixtures.py, Command.handle) *)

Definition days_between_weeks : Z := 7.

(** Lines 14-19: tomorrow at midnight, made timezone-aware.  [today] is the
    day number that [datetime.date.today()] returns. *)
Definition start_date (today : Z) : datetime :=
  make_aware (datetime_combine (today + 1) 0 0).

(** [l.pop()]. *)
Definition pop {A} (l : list A) : M (A * list A) :=
  match rev l with
  | [] => raise IndexError
  | x :: r => ret (x, rev r)
  end.

(** [l.insert(1, x)]. *)
Definition insert_at_1 {A} (x : A) (l : list A) : list A :=
  firstn 1 l ++ x :: skipn 1 l.

(** [teams.insert(1, teams.pop())]. *)
Definition rotate (teams : list (option Team)) : M (list (option Team)) :=
  p <- pop teams ;;
  ret (insert_at_1 (fst p) (snd p)).

(** The seat list: a bye seat is added to an odd number of teams. *)
Definition seats (all_teams : list Team) : list (option Team) :=
  if negb (length all_teams mod 2 =? 0)%nat
  then map Some all_teams ++ [None]
  else map Some all_teams.

Section Command.
Variable db_fault : DB -> Match -> option string.

(** The body of [for i in range(half_size)]. *)
Definition pair_seats (teams : list (option Team)) (half_size : nat)
           (current_datetime : datetime) (i : nat)
           (all_matches_to_save : list Match) : M (list Match) :=
  team1 <- index teams i ;;
  team2 <- index teams (i + half_size) ;;
  match team1, team2 with
  | Some team1, Some team2 =>
      let match_home := new_Match team1 team2 current_datetime false in
      write PLAIN (Fixture (team_name team1) (team_name team2)) ;;;
      ret (all_matches_to_save ++ [match_home])
  | _, _ => ret all_matches_to_save
  end.

(** The body of [for round_num in range(total_rounds)]; the loop carries
    the seat list, the current date and the matches generated so far. *)
Definition first_leg_round (num_teams : nat) (round_num : nat)
           (st : list (option Team) * datetime * list Match)
  : M (list (option Team) * datetime * list Match) :=
  let '(teams, current_datetime, all_matches_to_save) := st in
  let current_datetime :=
    if (0 <? round_num)%nat
    then add_days current_datetime days_between_weeks
    else current_datetime in
  write PLAIN (RoundHeader (round_num + 1) (dt_day current_datetime)) ;;;
  let half_size := (num_teams / 2)%nat in
  all_matches_to_save <-
    for_each (range (Z.of_nat half_size))
             (pair_seats teams half_size current_datetime)
             all_matches_to_save ;;
  teams <- rotate teams ;;
  ret (teams, current_datetime, all_matches_to_save).

(** Phase 1. *)
Definition generate_first_leg (teams : list (option Team))
           (num_teams : nat) (total_rounds : Z) (start : datetime)
  : M (list Match) :=
  st <- for_each (range total_rounds) (first_leg_round num_teams)
                 (teams, start, []) ;;
  ret (snd st).

(** Lines 88-95: the return fixture of a first-leg match. *)
Definition return_match (total_rounds : Z) (m : Match) : Match :=
  let return_datetime :=
    add_days (match_date m) (total_rounds * days_between_weeks) in
  new_Match (away_team m) (home_team m) return_datetime false.

(** The body of [for match in leg1_matches_copy]. *)
Definition return_fixture (total_rounds : Z) (m : Match)
           (all_matches_to_save : list Match) : M (list Match) :=
  let match_away := return_match total_rounds m in
  write PLAIN (ReturnFixture (team_name (home_team match_away))
                             (team_name (away_team match_away))) ;;;
  ret (all_matches_to_save ++ [match_away]).

(** Phase 2. *)
Definition generate_second_leg (num_actual_teams : nat) (total_rounds : Z)
           (all_matches_to_save : list Match) : M (list Match) :=
  let leg1_matches_copy := all_matches_to_save in
  if (2 <? num_actual_teams)%nat then
    write SUCCESS GeneratingSecondLeg ;;;
    for_each leg1_matches_copy (return_fixture total_rounds)
             all_matches_to_save
  else ret all_matches_to_save.

(** The body of [for match in all_matches_to_save]. *)
Definition save_one (total_matches : nat) (m : Match) (count : nat)
  : M nat :=
  _ <- Match_save db_fault m ;;
  let count := (count + 1)%nat in
  if (count mod 10 =? 0)%nat
  then write PLAIN (Progress count total_matches) ;;; ret count
  else ret count.

(** Phase 3; [None] is the early [return] of the [except] branch. *)
Definition commit (all_matches_to_save : list Match) : M unit :=
  let total_matches := length all_matches_to_save in
  write NOTICE (Committing total_matches) ;;;
  saved <-
    try_except
      (count <- for_each all_matches_to_save (save_one total_matches) 0%nat ;;
       ret (Some count))
      (fun e =>
         write ERROR (CriticalSaveError (exn_str e)) ;;;
         connection_close ;;;
         ret None) ;;
  match saved with
  | None => ret tt
  | Some count =>
      connection_close ;;;
      write SUCCESS (SuccessfullyCreated count)
  end.

(** Lines 10-97: the announcements, the teams, and the two generation
    phases; the result is [all_matches_to_save]. *)
Definition generate (today : Z) : M (list Match) :=
  let start_date := start_date today in
  write NOTICE StartingGeneration ;;;
  write SUCCESS (StartDateSetTo (dt_day start_date)) ;;;
  write SUCCESS (MatchDaysSeparatedBy days_between_weeks) ;;;
  all_teams <- query Team_order_by_pk ;;
  let num_actual_teams := length all_teams in
  if (num_actual_teams <? 2)%nat then
    raise (CommandError "Need at least 2 teams to generate a schedule.")
  else
    let teams := seats all_teams in
    let num_teams := length teams in
    let total_rounds := Z.of_nat num_teams - 1 in
    matches_exist <-
      query (fun d => negb (length (match_table d) =? 0)%nat) ;;
    (if matches_exist then write WARNING ExistingMatchesFound
     else ret tt) ;;;
    write SUCCESS (GeneratingFirstLeg num_actual_teams) ;;;
    all_matches_to_save <-
      generate_first_leg teams num_teams total_rounds start_date ;;
    generate_second_leg num_actual_teams total_rounds all_matches_to_save.

Definition handle (today : Z) : M unit :=
  all_matches_to_save <- generate today ;;
  commit all_matches_to_save.
End Command.

(** ** [Match.get_winner] (models.py) *)

Definition get_winner (self : Match) : string :=
  if negb (is_played self) then "N/A"%string
  else if home_score self >? away_score self then team_name (home_team self)
  else if away_score self >? home_score self then team_name (away_team self)
  else "Draw"%string.

(** ** The schedule view (views.py) *)

(** The context that [schedule] hands to the template. *)
Record ScheduleContext := mkScheduleContext
  { played_matches : list Match;
    upcoming_matches : list Match;
    page_title : string }.

(** [Match.objects.all().order_by('match_date')]. *)
Definition Match_order_by_date (d : DB) : list Match :=
  stable_sort (fun a b => datetime_le (match_date a) (match_date b))
              (match_table d).

Definition schedule : M ScheduleContext :=
  all_matches <- query Match_order_by_date ;;
  let played_matches := filter is_played all_matches in
  let upcoming_matches := filter (fun m => negb (is_played m)) all_matches in
  ret (mkScheduleContext played_matches upcoming_matches
                         "Match Schedule and Results").

(** ** [MatchAdmin.save_model] (admin.py) *)

(** [Goal]: the match it belongs to and the team it is credited to; the
    scorer and the minute are not read here. *)
Record Goal := mkGoal { goal_match : Z; goal_team : Team }.

Definition set_scores (m : Match) (home away : Z) : Match :=
  mkMatch (match_pk m) (home_team m) (away_team m) (match_date m)
          home away (is_played m).

(** [obj.goals.filter(team=team).count()]. *)
Definition goals_count (goal_table : list Goal) (obj : Match) (team : Team)
  : Z :=
  Z.of_nat
    (length
       (filter (fun g =>
                  match match_pk obj with
                  | Some k => (goal_match g =? k) && Team_eq (goal_team g) team
                  | None => false
                  end) goal_table)).

Section Admin.
Variable db_fault : DB -> Match -> option string.

(** [Match.objects.filter(pk=pk).update(home_score=.., away_score=..)]: the
    row under that key, if any, gets the two scores; nothing else of it
    changes and [Match.save] is not run. *)
Definition Match_update_scores (pk : option Z) (home away : Z) : M unit :=
  fun w =>
    match pk with
    | None => (Ok tt, w)
    | Some k =>
        let table := match_table (db w) in
        match find (has_pk k) table with
        | None => (Ok tt, w)
        | Some row =>
            match db_fault (db w) (set_scores row home away) with
            | Some msg => (Raise (DatabaseError msg), w)
            | None =>
                (Ok tt,
                 mkWorld (mkDB (team_table (db w))
                               (map (fun m => if has_pk k m
                                              then set_scores m home away
                                              else m) table))
                         (stdout w) (connection_open w))
            end
        end
    end.

(** [save_model]: the goals are those already stored when the match form
    is saved; [goal_table] is that table. *)
Definition save_model (goal_table : list Goal) (obj : Match) : M Match :=
  obj <- Match_save db_fault obj ;;
  let home_goals := goals_count goal_table obj (home_team obj) in
  let away_goals := goals_count goal_table obj (away_team obj) in
  if negb (home_score obj =? home_goals) || negb (away_score obj =? away_goals)
  then
    let obj := set_scores obj home_goals away_goals in
    Match_update_scores (match_pk obj) home_goals away_goals ;;;
    ret obj
  else ret obj.
End Admin.

(** ** Vocabulary of the properties *)

(** The store and the connection are as they were; only the standard output
    may have grown. *)
Definition same_store (w w' : World) : Prop :=
  db w' = db w /\ connection_open w' = connection_open w.

Definition read_only {A} (c : M A) : Prop :=
  forall w, same_store w (snd (c w)).

(** The rows that saving the instances [ms], none of which has a key, adds
    to [table] when the store accepts every one of them. *)
Fixpoint saved_rows (table ms : list Match) : list Match :=
  match ms with
  | [] => []
  | m :: ms' =>
      let row := set_match_pk (Match_set_played_from_scores m)
                              (Some (fresh_pk table)) in
      row :: saved_rows (table ++ [row]) ms'
  end.

(** The store accepts the rows of [ms] one after the other, starting from
    [table]. *)
Fixpoint accepted (db_fault : DB -> Match -> option string)
         (teams : list Team) (table ms : list Match) : Prop :=
  match ms with
  | [] => True
  | m :: ms' =>
      let self := Match_set_played_from_scores m in
      db_fault (mkDB teams table) self = None /\
      accepted db_fault teams
               (table ++ [set_match_pk self (Some (fresh_pk table))]) ms'
  end.

(** A freshly constructed fixture: no key yet, not played, no goals. *)
Definition new_fixture (m : Match) : Prop :=
  match_pk m = None /\ is_played m = false /\
  home_score m = 0 /\ away_score m = 0.

(** How many of [ms] have [home] at home against [away]. *)
Definition fixture_count (home away : Team) (ms : list Match) : nat :=
  length (filter (fun m => Team_eq (home_team m) home
                           && Team_eq (away_team m) away) ms).

(** The progress lines written while the saves number [c + 1] to [c + n]
    succeed. *)
Definition progress_lines (c n total : nat) : list (Style * Text) :=
  map (fun k => (PLAIN, Progress k total))
      (filter (fun k => (k mod 10 =? 0)%nat) (seq (c + 1) n)).

(** [m2] is the return fixture of [m1], [offset] days later. *)
Definition is_return_of (offset : Z) (m1 m2 : Match) : Prop :=
  home_team m2 = away_team m1 /\ away_team m2 = home_team m1 /\
  match_date m2 = add_days (match_date m1) offset.

(** The arithmetic every standings row obeys. *)
Definition row_laws (r : Stats) : Prop :=
  s_Pts r = 3 * s_W r + s_D r /\
  s_P r = s_W r + s_D r + s_L r /\
  s_GD r = s_GF r - s_GA r /\
  0 <= s_W r /\ 0 <= s_D r /\ 0 <= s_L r.

(** In date order. *)
Definition by_date (a b : Match) : Prop :=
  datetime_le (match_date a) (match_date b) = true.

(** A date a whole number of weeks after the start date of a run made on
    day [today]: at midnight, timezone-aware, after [today]. *)
Definition weeks_after_start (today : Z) (d : datetime) : Prop :=
  exists j, 0 <= j /\ d = mkDatetime (today + 1 + 7 * j) 0 0 true.

(** A fixture between two different teams of [teams]. *)
Definition proper_fixture (teams : list Team) (m : Match) : Prop :=
  In (home_team m) teams /\ In (away_team m) teams /\
  team_pk (home_team m) <> team_pk (away_team m).

(** The bye seats of a seat list, and whether the pairing of seat [i] has
    a team on both sides. *)
Definition is_bye (seat : option Team) : bool :=
  match seat with None => true | Some _ => false end.

Definition byes (teams : list (option Team)) : nat :=
  length (filter is_bye teams).

Definition both_seated (a b : option (option Team)) : bool :=
  match a, b with
  | Some (Some _), Some (Some _) => true
  | _, _ => false
  end.

(** The sum of [f] over a list. *)
Definition zsum {A} (f : A -> Z) (l : list A) : Z :=
  fold_right (fun x acc => f x + acc) 0 l.

(** The goals for and against [team] in [m], as [tally] orients them. *)
Definition goals_for (team : Team) (m : Match) : Z :=
  if Team_eq (home_team m) team then home_score m else away_score m.

Definition goals_against (team : Team) (m : Match) : Z :=
  if Team_eq (home_team m) team then away_score m else home_score m.

(** The two sides of [m] are different teams of [teams] (what the foreign
    keys of a match give, for a match between two teams). *)
Definition sound_match (teams : list Team) (m : Match) : Prop :=
  In (team_pk (home_team m)) (map team_pk teams) /\
  In (team_pk (away_team m)) (map team_pk teams) /\
  team_pk (home_team m) <> team_pk (away_team m).

(** Whether [t] is a side of [m], and how many of [ms] have [t] play on
    the day [day]. *)
Definition plays (t : Team) (m : Match) : bool :=
  Team_eq (home_team m) t || Team_eq (away_team m) t.

Definition fixtures_on (t : Team) (day : Z) (ms : list Match) : nat :=
  length (filter (fun m => plays t m && (dt_day (match_date m) =? day)) ms).

(** Whether seat [i] holds [t]. *)
Definition seat_is (t : Team) (teams : list (option Team)) (i : nat) : bool :=
  match nth_error teams i with
  | Some (Some x) => Team_eq x t
  | _ => false
  end.

(** ** Sample data *)

Definition no_fault : DB -> Match -> option string := fun _ _ => None.

Definition tA := mkTeam 1 "A".
Definition tB := mkTeam 2 "B".
Definition tC := mkTeam 3 "C".
Definition tD := mkTeam 4 "D".
Definition tE := mkTeam 5 "E".
Definition tF := mkTeam 6 "F".

(** A store holding the given teams and no match, nothing written yet. *)
Definition league (ts : list Team) : World := mkWorld (mkDB ts []) [] true.

(** Two teams (stored out of name order) and one fixture not yet played. *)
Definition unplayed_league : World :=
  mkWorld (mkDB [tB; tA] [new_Match tA tB (start_date 100) false]) [] true.

(** Two teams and the played match A 2 - 1 B. *)
Definition played_league : World :=
  mkWorld (mkDB [tA; tB]
                [mkMatch (Some 1) tA tB (start_date 100) 2 1 true])
          [] true.

(** A store that refuses a write once it holds [n] matches. *)
Definition full_at (n : nat) : DB -> Match -> option string :=
  fun d _ => if (n <=? length (match_table d))%nat
             then Some "disk full"%string else None.

(** * Properties *)

(** ** The stable sort *)

Section StableSortFacts.
Context {A : Type} (le : A -> A -> bool).
Hypothesis le_total : forall x y, le x y = true \/ le y x = true.
Hypothesis le_trans :
  forall x y z, le x y = true -> le y z = true -> le x z = true.

Let before (x y : A) : Prop := le x y = true.

Lemma insert_sorted_perm x l : Permutation (insert_sorted le x l) (x :: l).
Proof.
  induction l as [|y l IH]; simpl.
  - apply Permutation_refl.
  - destruct (le x y).
    + apply Permutation_refl.
    + eapply perm_trans; [apply perm_skip, IH | apply perm_swap].
Qed.

Lemma stable_sort_perm l : Permutation (stable_sort le l) l.
Proof.
  induction l as [|x l IH]; simpl.
  - constructor.
  - eapply perm_trans; [apply insert_sorted_perm | apply perm_skip, IH].
Qed.

Lemma insert_sorted_sorted x l :
  StronglySorted before l -> StronglySorted before (insert_sorted le x l).
Proof.
  induction 1 as [|y l Hs IH Hy]; simpl.
  - repeat constructor.
  - destruct (le x y) eqn:Hxy.
    + constructor; [constructor; assumption|].
      constructor; [exact Hxy|].
      rewrite Forall_forall in Hy |- *.
      intros z Hz. exact (le_trans _ _ _ Hxy (Hy z Hz)).
    + constructor; [exact IH|].
      rewrite Forall_forall in Hy |- *.
      intros z Hz.
      apply (Permutation_in _ (insert_sorted_perm x l)) in Hz.
      destruct Hz as [<-|Hz]; [|exact (Hy z Hz)].
      destruct (le_total x y) as [H|H]; [congruence | exact H].
Qed.

Lemma stable_sort_sorted l : StronglySorted before (stable_sort le l).
Proof.
  induction l as [|x l IH]; simpl.
  - constructor.
  - apply insert_sorted_sorted, IH.
Qed.

(** Inserting never carries an element over an equivalent one. *)
Lemma insert_sorted_filter a x l :
  filter (equiv_by le a) (insert_sorted le x l)
  = filter (equiv_by le a) (x :: l).
Proof.
  induction l as [|y l IH]; [reflexivity|].
  cbn [insert_sorted]. destruct (le x y) eqn:Hxy; [reflexivity|].
  cbn [filter] in *. rewrite IH.
  destruct (equiv_by le a y) eqn:Hy; destruct (equiv_by le a x) eqn:Hx;
    try reflexivity.
  unfold equiv_by in Hx, Hy.
  apply andb_true_iff in Hx, Hy.
  rewrite (le_trans x a y) in Hxy; [discriminate| |]; tauto.
Qed.

Lemma stable_sort_stable a l :
  filter (equiv_by le a) (stable_sort le l) = filter (equiv_by le a) l.
Proof.
  induction l as [|x l IH]; [reflexivity|].
  cbn [stable_sort fold_right]. rewrite insert_sorted_filter.
  cbn [filter]. fold (stable_sort le l). rewrite IH. reflexivity.
Qed.
End StableSortFacts.

Lemma stable_sort_all_equal {A} (le : A -> A -> bool) (l : list A) :
  (forall x y, In x l -> In y l -> le x y = true) -> stable_sort le l = l.
Proof.
  induction l as [|x l IH]; intros H; [reflexivity|].
  cbn [stable_sort fold_right]. fold (stable_sort le l).
  rewrite IH by (intros; apply H; right; assumption).
  destruct l as [|y l]; [reflexivity|].
  cbn [insert_sorted]. rewrite H; [reflexivity|left; reflexivity|].
  right; left; reflexivity.
Qed.

Lemma stable_sort_In {A} (le : A -> A -> bool) (l : list A) x :
  In x (stable_sort le l) <-> In x l.
Proof.
  split; apply Permutation_in;
    [|apply Permutation_sym]; apply stable_sort_perm.
Qed.

(** ** The key order *)

Lemma tuple_le_spec a b : tuple_le a b = true <-> lex_le a b.
Proof.
  destruct a as [[a1 a2] a3], b as [[b1 b2] b3]; unfold tuple_le, lex_le.
  rewrite !orb_true_iff, !andb_true_iff, !orb_true_iff, !andb_true_iff.
  rewrite !Z.ltb_lt, !Z.eqb_eq, Z.leb_le. reflexivity.
Qed.

Lemma tuple_eqb_spec a b : tuple_eqb a b = true <-> a = b.
Proof.
  destruct a as [[a1 a2] a3], b as [[b1 b2] b3]; unfold tuple_eqb.
  rewrite !andb_true_iff, !Z.eqb_eq.
  split; [intros [[-> ->] ->]; reflexivity | intros [= -> -> ->]; auto].
Qed.

Lemma lex_le_total a b : lex_le a b \/ lex_le b a.
Proof.
  destruct a as [[a1 a2] a3], b as [[b1 b2] b3]; unfold lex_le; lia.
Qed.

Lemma lex_le_trans a b c : lex_le a b -> lex_le b c -> lex_le a c.
Proof.
  destruct a as [[a1 a2] a3], b as [[b1 b2] b3], c as [[c1 c2] c3].
  unfold lex_le; lia.
Qed.

Lemma lex_le_antisym a b : lex_le a b -> lex_le b a -> a = b.
Proof.
  destruct a as [[a1 a2] a3], b as [[b1 b2] b3]; unfold lex_le.
  intros H1 H2.
  assert (a1 = b1 /\ a2 = b2 /\ a3 = b3) as (-> & -> & ->) by lia.
  reflexivity.
Qed.

Lemma lex_le_refl a : lex_le a a.
Proof. destruct a as [[a1 a2] a3]; unfold lex_le; lia. Qed.

(** ** Standings calculator *)

Lemma for_each_standings_row d teams : forall acc w,
  db w = d ->
  for_each teams standings_row acc w = (Ok (acc ++ map (row_of d) teams), w).
Proof.
  induction teams as [|t teams IH]; intros acc w Hd; cbn [for_each map].
  - rewrite app_nil_r. reflexivity.
  - unfold bind at 1. unfold standings_row at 1, query, bind, ret.
    rewrite IH by exact Hd. rewrite <- app_assoc, Hd. reflexivity.
Qed.

Lemma get_standings_eq w :
  get_standings w = (Ok (sort_reverse sort_key (unsorted_rows (db w))), w).
Proof.
  unfold get_standings, bind, query at 1.
  rewrite (for_each_standings_row (db w)) by reflexivity.
  reflexivity.
Qed.

Lemma tally_team team stats m : s_team (tally team stats m) = s_team stats.
Proof.
  unfold tally.
  destruct (Team_eq (home_team m) team);
    repeat match goal with |- context [if ?c then _ else _] => destruct c end;
    reflexivity.
Qed.

Lemma fold_tally_team team ms : forall stats,
  s_team (fold_left (tally team) ms stats) = s_team stats.
Proof.
  induction ms as [|m ms IH]; intros stats; cbn [fold_left];
    [reflexivity|].
  rewrite IH. apply tally_team.
Qed.

Lemma row_of_team d team : s_team (row_of d team) = team.
Proof. unfold row_of, team_row, set_GD; cbn. apply fold_tally_team. Qed.

Lemma unsorted_rows_teams d : map s_team (unsorted_rows d) = Team_default_order d.
Proof.
  unfold unsorted_rows. rewrite map_map.
  erewrite map_ext; [apply map_id | intros; apply row_of_team].
Qed.

Lemma reverse_key_total (x y : Stats) :
  tuple_le (sort_key y) (sort_key x) = true
  \/ tuple_le (sort_key x) (sort_key y) = true.
Proof. rewrite !tuple_le_spec. apply lex_le_total. Qed.

Lemma reverse_key_trans (x y z : Stats) :
  tuple_le (sort_key y) (sort_key x) = true ->
  tuple_le (sort_key z) (sort_key y) = true ->
  tuple_le (sort_key z) (sort_key x) = true.
Proof. rewrite !tuple_le_spec. intros; eapply lex_le_trans; eassumption. Qed.

Lemma equiv_by_reverse_key (a x : Stats) :
  equiv_by (fun x y => tuple_le (sort_key y) (sort_key x)) a x
  = tuple_eqb (sort_key x) (sort_key a).
Proof.
  unfold equiv_by. apply eq_true_iff_eq.
  rewrite andb_true_iff, !tuple_le_spec, tuple_eqb_spec.
  split.
  - intros [H1 H2]. apply lex_le_antisym; assumption.
  - intros ->. split; apply lex_le_refl.
Qed.

(** The sort of [get_standings], in terms of its key function. *)
Lemma sorted_stable_by_key (w : World) :
  exists rows,
    get_standings w = (Ok rows, w) /\
    StronglySorted (fun r1 r2 => lex_le (sort_key r2) (sort_key r1)) rows /\
    Permutation rows (unsorted_rows (db w)) /\
    map s_team (unsorted_rows (db w)) = Team_default_order (db w) /\
    forall k,
      filter (fun r => tuple_eqb (sort_key r) k) rows
      = filter (fun r => tuple_eqb (sort_key r) k) (unsorted_rows (db w)).
Proof.
  eexists. split; [apply get_standings_eq|].
  unfold sort_reverse.
  set (le := fun x y : Stats => tuple_le (sort_key y) (sort_key x)).
  split; [|split; [|split]].
  - pose proof (stable_sort_sorted le reverse_key_total reverse_key_trans
                  (unsorted_rows (db w))) as Hs.
    induction Hs as [|r l Hs IH Hr]; constructor; [exact IH|].
    revert Hr. apply Forall_impl. intros r2. subst le. cbv beta.
    apply tuple_le_spec.
  - apply stable_sort_perm.
  - apply unsorted_rows_teams.
  - intros k.
    set (a := mkStats tA 0 0 0 0 (snd k) 0 (snd (fst k)) (fst (fst k))).
    assert (Hk : sort_key a = k) by (destruct k as [[k1 k2] k3]; reflexivity).
    pose proof (stable_sort_stable le reverse_key_trans a
                  (unsorted_rows (db w))) as Hst.
    erewrite (filter_ext (equiv_by le a)) in Hst
      by (intros r; subst le; rewrite equiv_by_reverse_key, Hk; reflexivity).
    rewrite Hst. apply filter_ext.
    intros r; subst le; rewrite equiv_by_reverse_key, Hk; reflexivity.
Qed.

Lemma filter_split {A} (f : A -> bool) (x : A) (rest : list A) :
  forall l front,
    filter f l = front ++ x :: rest ->
    exists l1 l2, l = l1 ++ x :: l2 /\ filter f l2 = rest.
Proof.
  induction l as [|a l IH]; intros front H; cbn [filter] in H.
  - destruct front; discriminate H.
  - destruct (f a).
    + destruct front as [|b front]; cbn [app] in H.
      * injection H as Ha Hl. subst a.
        exists [], l. split; [reflexivity | exact Hl].
      * injection H as _ Hl.
        destruct (IH front Hl) as (l1 & l2 & -> & Hl2).
        exists (a :: l1), l2. split; [reflexivity | exact Hl2].
    + destruct (IH front H) as (l1 & l2 & -> & Hl2).
      exists (a :: l1), l2. split; [reflexivity | exact Hl2].
Qed.

Lemma filter_keeps_order {A} (f : A -> bool) (l front mid rest : list A) x y :
  filter f l = front ++ x :: mid ++ y :: rest ->
  exists l1 l2 l3, l = l1 ++ x :: l2 ++ y :: l3.
Proof.
  intros H.
  destruct (filter_split f x _ l front H) as (l1 & l' & -> & H').
  destruct (filter_split f y _ l' mid H') as (l2 & l3 & -> & _).
  exists l1, l2, l3. reflexivity.
Qed.

Lemma row_of_rows d rows :
  Permutation rows (unsorted_rows d) ->
  Forall (fun r => r = row_of d (s_team r)) rows.
Proof.
  intros Hperm. apply Forall_forall. intros r Hin.
  apply (Permutation_in _ Hperm) in Hin.
  unfold unsorted_rows in Hin. apply in_map_iff in Hin.
  destruct Hin as (t & <- & _). rewrite row_of_team. reflexivity.
Qed.

(** C2.  [get_standings] returns one row per team of the table, each the
    row of its team, in descending order of (Pts, GD, GF) compared as a
    tuple: a row stands before another only if it has more points, or as
    many points and a better goal difference, or as many of both and at
    least as many goals for.  Rows that agree on Pts, GD and GF stand in
    the order in which their teams arrived from the team queryset: the
    rows of any one key are the same list before and after the sort, and
    of two such rows the team of the first arrived before the team of the
    second. *)
Theorem get_standings_sorted_stable (w : World) :
  exists rows,
    get_standings w = (Ok rows, w) /\
    StronglySorted
      (fun r1 r2 =>
         s_Pts r2 < s_Pts r1 \/
         (s_Pts r2 = s_Pts r1 /\
          (s_GD r2 < s_GD r1 \/
           (s_GD r2 = s_GD r1 /\ s_GF r2 <= s_GF r1)))) rows /\
    Permutation (map s_team rows) (team_table (db w)) /\
    Forall (fun r =>
              r = team_row (s_team r)
                           (length (Match_all_played (s_team r) (db w)))
                           (Match_all_played (s_team r) (db w))) rows /\
    Permutation rows (unsorted_rows (db w)) /\
    map s_team (unsorted_rows (db w)) = Team_default_order (db w) /\
    Permutation (Team_default_order (db w)) (team_table (db w)) /\
    (forall pts gd gf,
        filter (fun r => (s_Pts r =? pts) && (s_GD r =? gd) && (s_GF r =? gf))
               rows
        = filter (fun r => (s_Pts r =? pts) && (s_GD r =? gd) && (s_GF r =? gf))
                 (unsorted_rows (db w))) /\
    (forall l1 r1 l2 r2 l3,
        rows = l1 ++ r1 :: l2 ++ r2 :: l3 ->
        s_Pts r1 = s_Pts r2 -> s_GD r1 = s_GD r2 -> s_GF r1 = s_GF r2 ->
        exists k1 k2 k3,
          Team_default_order (db w)
          = k1 ++ s_team r1 :: k2 ++ s_team r2 :: k3).
Proof.
  destruct (sorted_stable_by_key w)
    as (rows & Hget & Hsorted & Hperm & Hteams & Hstable).
  assert (Horder : Permutation (Team_default_order (db w))
                               (team_table (db w)))
    by apply stable_sort_perm.
  exists rows. split; [exact Hget|].
  split; [exact Hsorted|].
  split.
  { eapply perm_trans; [apply Permutation_map, Hperm|].
    rewrite Hteams. exact Horder. }
  split; [exact (row_of_rows _ _ Hperm)|].
  split; [exact Hperm|]. split; [exact Hteams|]. split; [exact Horder|].
  split.
  { intros pts gd gf. exact (Hstable (pts, gd, gf)). }
  intros l1 r1 l2 r2 l3 Hrows Hpts Hgd Hgf.
  pose proof (Hstable (sort_key r1)) as Hk.
  set (f := fun r => tuple_eqb (sort_key r) (sort_key r1)) in Hk.
  assert (H1 : f r1 = true) by (apply tuple_eqb_spec; reflexivity).
  assert (H2 : f r2 = true).
  { apply tuple_eqb_spec. unfold sort_key. rewrite Hpts, Hgd, Hgf.
    reflexivity. }
  rewrite Hrows in Hk.
  rewrite filter_app in Hk. cbn [filter] in Hk. rewrite H1 in Hk.
  rewrite filter_app in Hk. cbn [filter] in Hk. rewrite H2 in Hk.
  symmetry in Hk.
  destruct (filter_keeps_order _ _ _ _ _ _ _ Hk) as (m1 & m2 & m3 & Hun).
  rewrite <- Hteams, Hun.
  exists (map s_team m1), (map s_team m2), (map s_team m3).
  rewrite map_app. cbn [map]. rewrite map_app. reflexivity.
Qed.

Lemma get_standings_sorted_stable_witness :
  exists rowA rowB k1 k2 k3,
    get_standings (league [tB; tA]) = (Ok [rowA; rowB], league [tB; tA]) /\
    s_team rowA = tA /\ s_team rowB = tB /\
    Team_default_order (db (league [tB; tA])) = k1 ++ tA :: k2 ++ tB :: k3.
Proof.
  destruct (get_standings_sorted_stable (league [tB; tA]))
    as (rows & Hget & _ & _ & _ & _ & _ & _ & _ & Horder).
  assert (E : get_standings (league [tB; tA])
              = (Ok [mkStats tA 0 0 0 0 0 0 0 0; mkStats tB 0 0 0 0 0 0 0 0],
                 league [tB; tA]))
    by (vm_compute; reflexivity).
  rewrite E in Hget. injection Hget as Hrows.
  destruct (Horder [] (mkStats tA 0 0 0 0 0 0 0 0) []
                   (mkStats tB 0 0 0 0 0 0 0 0) [])
    as (k1 & k2 & k3 & Hk);
    [symmetry; exact Hrows | reflexivity | reflexivity | reflexivity |].
  exists (mkStats tA 0 0 0 0 0 0 0 0), (mkStats tB 0 0 0 0 0 0 0 0), k1, k2, k3.
  split; [exact E|]. split; [reflexivity|]. split; [reflexivity|].
  exact Hk.
Defined.

Lemma filter_none {A} (f : A -> bool) (l : list A) :
  (forall x, In x l -> f x = false) -> filter f l = [].
Proof.
  induction l as [|x l IH]; intros H; [reflexivity|].
  cbn [filter]. rewrite H by (left; reflexivity).
  apply IH. intros; apply H; right; assumption.
Qed.

Lemma no_played_match d team :
  Forall (fun m => is_played m = false) (match_table d) ->
  Match_all_played team d = [].
Proof.
  intros H. apply filter_none. intros m Hm.
  apply stable_sort_In in Hm.
  rewrite Forall_forall in H. unfold played_by.
  rewrite (H m Hm), !andb_false_r. reflexivity.
Qed.

Lemma row_of_no_played d team :
  Forall (fun m => is_played m = false) (match_table d) ->
  row_of d team = mkStats team 0 0 0 0 0 0 0 0.
Proof.
  intros H. unfold row_of. rewrite (no_played_match d team H). reflexivity.
Qed.

(** C8.  [get_standings] always returns a table and leaves the world as it
    found it; no team gives the empty table; and when no match of the store
    is played, there is one row per team, in the order of the teams, each
    with P = W = D = L = GF = GA = GD = Pts = 0. *)
Theorem standings_zero_matches (w : World) :
  exists rows,
    get_standings w = (Ok rows, w) /\
    (team_table (db w) = [] -> rows = []) /\
    (Forall (fun m => is_played m = false) (match_table (db w)) ->
     map s_team rows = Team_default_order (db w) /\
     Permutation (map s_team rows) (team_table (db w)) /\
     Forall zero_row rows).
Proof.
  eexists. split; [apply get_standings_eq|]. split.
  - intros Hnil. unfold unsorted_rows, Team_default_order.
    rewrite Hnil. reflexivity.
  - intros Hno.
    assert (Hrows : unsorted_rows (db w)
                    = map (fun t => mkStats t 0 0 0 0 0 0 0 0)
                          (Team_default_order (db w))).
    { apply map_ext. intros t. apply row_of_no_played, Hno. }
    assert (Hsort : sort_reverse sort_key (unsorted_rows (db w))
                    = unsorted_rows (db w)).
    { apply stable_sort_all_equal. rewrite Hrows. intros x y Hx Hy.
      apply in_map_iff in Hx, Hy.
      destruct Hx as (tx & <- & _), Hy as (ty & <- & _). reflexivity. }
    rewrite Hsort. split; [apply unsorted_rows_teams|]. split.
    + rewrite unsorted_rows_teams. apply stable_sort_perm.
    + rewrite Hrows. apply Forall_forall. intros r Hr.
      apply in_map_iff in Hr. destruct Hr as (t & <- & _).
      repeat split.
Qed.

Lemma standings_zero_matches_witness :
  exists rows,
    get_standings unplayed_league = (Ok rows, unplayed_league) /\
    map s_team rows = [tA; tB] /\
    Forall zero_row rows.
Proof.
  destruct (standings_zero_matches unplayed_league) as (rows & Hget & _ & H).
  exists rows. split; [exact Hget|].
  destruct H as (Hteams & _ & Hzero).
  - repeat constructor.
  - split; [exact Hteams | exact Hzero].
Defined.

(** ** [Match.save] *)

Lemma set_played_from_scores_iff self :
  is_played (Match_set_played_from_scores self) = true
  <-> (home_score self > 0 \/ away_score self > 0).
Proof.
  unfold Match_set_played_from_scores.
  destruct ((home_score self >? 0) || (away_score self >? 0)) eqn:E; cbn.
  - apply orb_true_iff in E. rewrite !Z.gtb_gt in E. tauto.
  - apply orb_false_iff in E. rewrite !Z.gtb_ltb, !Z.ltb_ge in E.
    split; [discriminate | lia].
Qed.

Lemma set_played_from_scores_fields self :
  let self' := Match_set_played_from_scores self in
  match_pk self' = match_pk self /\ home_team self' = home_team self /\
  away_team self' = away_team self /\ match_date self' = match_date self /\
  home_score self' = home_score self /\ away_score self' = away_score self.
Proof.
  unfold Match_set_played_from_scores.
  destruct ((home_score self >? 0) || (away_score self >? 0));
    repeat split.
Qed.

Lemma update_row_In row k table :
  existsb (has_pk k) table = true -> In row (update_row row k table).
Proof.
  intros H. apply existsb_exists in H. destruct H as (m & Hm & Hk).
  unfold update_row. apply in_map_iff. exists m. rewrite Hk. auto.
Qed.


(** ** Effects of the command *)

Lemma same_store_refl w : same_store w w.
Proof. split; reflexivity. Qed.

Lemma same_store_trans w1 w2 w3 :
  same_store w1 w2 -> same_store w2 w3 -> same_store w1 w3.
Proof. intros [H1 H2] [H3 H4]; split; congruence. Qed.

Lemma read_only_ret {A} (a : A) : read_only (ret a).
Proof. intros w; apply same_store_refl. Qed.

Lemma read_only_raise {A} e : read_only (@raise A e).
Proof. intros w; apply same_store_refl. Qed.

Lemma read_only_write s t : read_only (write s t).
Proof. intros w; split; reflexivity. Qed.

Lemma read_only_query {A} (q : DB -> A) : read_only (query q).
Proof. intros w; apply same_store_refl. Qed.

Lemma read_only_index {A} (l : list A) i : read_only (index l i).
Proof.
  unfold index. destruct (nth_error l i);
    [apply read_only_ret | apply read_only_raise].
Qed.

Lemma read_only_bind {A B} (c : M A) (k : A -> M B) :
  read_only c -> (forall a, read_only (k a)) -> read_only (bind c k).
Proof.
  intros Hc Hk w. unfold bind. specialize (Hc w).
  destruct (c w) as [[a|e] w1]; cbn in *; [|exact Hc].
  eapply same_store_trans; [exact Hc | apply Hk].
Qed.

Lemma read_only_for_each {A S} (xs : list A) (body : A -> S -> M S) :
  (forall x s, read_only (body x s)) -> forall s, read_only (for_each xs body s).
Proof.
  intros Hb. induction xs as [|x xs IH]; intros s; cbn [for_each].
  - apply read_only_ret.
  - apply read_only_bind; [apply Hb | exact IH].
Qed.

Lemma read_only_rotate teams : read_only (rotate teams).
Proof.
  unfold rotate, pop. apply read_only_bind.
  - destruct (rev teams); [apply read_only_raise | apply read_only_ret].
  - intros p. apply read_only_ret.
Qed.

Lemma read_only_pair_seats teams half date i acc :
  read_only (pair_seats teams half date i acc).
Proof.
  unfold pair_seats.
  apply read_only_bind; [apply read_only_index|]. intros [t1|];
    (apply read_only_bind; [apply read_only_index|]); intros [t2|];
    try apply read_only_ret.
  apply read_only_bind; [apply read_only_write|].
  intros _; apply read_only_ret.
Qed.

Lemma read_only_first_leg_round n r st : read_only (first_leg_round n r st).
Proof.
  destruct st as [[teams date] acc]. unfold first_leg_round.
  apply read_only_bind; [apply read_only_write|]. intros _.
  apply read_only_bind;
    [apply read_only_for_each; intros; apply read_only_pair_seats|].
  intros acc'. apply read_only_bind; [apply read_only_rotate|].
  intros t; apply read_only_ret.
Qed.

Lemma read_only_first_leg teams n rounds start :
  read_only (generate_first_leg teams n rounds start).
Proof.
  unfold generate_first_leg. apply read_only_bind.
  - apply read_only_for_each. intros; apply read_only_first_leg_round.
  - intros st; apply read_only_ret.
Qed.

Lemma read_only_second_leg n rounds leg1 :
  read_only (generate_second_leg n rounds leg1).
Proof.
  unfold generate_second_leg. destruct (2 <? n)%nat; [|apply read_only_ret].
  apply read_only_bind; [apply read_only_write|]. intros _.
  apply read_only_for_each. intros m acc. unfold return_fixture.
  apply read_only_bind; [apply read_only_write|].
  intros _; apply read_only_ret.
Qed.

Lemma read_only_generate today : read_only (generate today).
Proof.
  unfold generate.
  do 3 (apply read_only_bind; [apply read_only_write|]; intros _).
  apply read_only_bind; [apply read_only_query|]. intros all_teams.
  destruct (length all_teams <? 2)%nat; [apply read_only_raise|].
  apply read_only_bind; [apply read_only_query|]. intros ex.
  apply read_only_bind;
    [destruct ex; [apply read_only_write | apply read_only_ret]|].
  intros _. apply read_only_bind; [apply read_only_write|]. intros _.
  apply read_only_bind; [apply read_only_first_leg|]. intros leg1.
  apply read_only_second_leg.
Qed.

Lemma generate_same_store today w r w' :
  generate today w = (r, w') -> same_store w w'.
Proof.
  intros H. pose proof (read_only_generate today w) as Hs.
  rewrite H in Hs. exact Hs.
Qed.

Lemma Team_order_by_pk_length d :
  length (Team_order_by_pk d) = length (team_table d).
Proof. apply Permutation_length, stable_sort_perm. Qed.

(** C9.  With fewer than two teams the command raises its configuration
    error once the three opening lines are written, and the store is as it
    was: no match has been saved. *)
Theorem too_few_teams_rejected
        (db_fault : DB -> Match -> option string) (today : Z) (w : World) :
  (length (team_table (db w)) < 2)%nat ->
  exists w',
    handle db_fault today w
    = (Raise (CommandError "Need at least 2 teams to generate a schedule."),
       w') /\
    same_store w w' /\
    match_table (db w') = match_table (db w).
Proof.
  intros Hlen. rewrite <- Team_order_by_pk_length in Hlen.
  apply Nat.ltb_lt in Hlen.
  eexists. split; [|split].
  - unfold handle, generate, bind, write, query.
    cbn [db stdout connection_open]. rewrite Hlen. reflexivity.
  - split; reflexivity.
  - reflexivity.
Qed.

Lemma too_few_teams_rejected_witness :
  (exists w',
      handle no_fault 100 (league [tA])
      = (Raise (CommandError "Need at least 2 teams to generate a schedule."),
         w') /\
      match_table (db w') = []) /\
  (exists w',
      handle no_fault 100 (league [])
      = (Raise (CommandError "Need at least 2 teams to generate a schedule."),
         w') /\
      match_table (db w') = []).
Proof.
  split.
  - destruct (too_few_teams_rejected no_fault 100 (league [tA]))
      as (w' & H & _ & Ht); [cbn; lia|].
    exists w'. split; [exact H | exact Ht].
  - destruct (too_few_teams_rejected no_fault 100 (league []))
      as (w' & H & _ & Ht); [cbn; lia|].
    exists w'. split; [exact H | exact Ht].
Defined.

(** ** The save loop *)

Lemma progress_lines_step c n total :
  progress_lines c (S n) total
  = progress_lines c 1 total ++ progress_lines (c + 1) n total.
Proof.
  unfold progress_lines. cbn [seq filter].
  replace (S (c + 1)) with (c + 1 + 1)%nat by lia.
  destruct ((c + 1) mod 10 =? 0)%nat; reflexivity.
Qed.

Lemma set_played_from_scores_pk m :
  match_pk (Match_set_played_from_scores m) = match_pk m.
Proof. apply set_played_from_scores_fields. Qed.

Section SaveLoop.
Variable db_fault : DB -> Match -> option string.
Variable total : nat.

Lemma save_one_accepted m c teams table out conn :
  match_pk m = None ->
  db_fault (mkDB teams table) (Match_set_played_from_scores m) = None ->
  save_one db_fault total m c (mkWorld (mkDB teams table) out conn)
  = (Ok (c + 1)%nat,
     mkWorld (mkDB teams
                   (table ++ [set_match_pk (Match_set_played_from_scores m)
                                           (Some (fresh_pk table))]))
             (out ++ progress_lines c 1 total) conn).
Proof.
  intros Hpk Hacc.
  unfold save_one, bind, Match_save, Model_save.
  cbn [db stdout connection_open match_table team_table].
  rewrite Hacc, set_played_from_scores_pk, Hpk.
  unfold progress_lines. cbn [seq filter map].
  destruct ((c + 1) mod 10 =? 0)%nat.
  - reflexivity.
  - unfold ret. cbn [map]. rewrite app_nil_r. reflexivity.
Qed.

Lemma save_one_fault m c w msg :
  db_fault (db w) (Match_set_played_from_scores m) = Some msg ->
  save_one db_fault total m c w = (Raise (DatabaseError msg), w).
Proof.
  intros Hf. unfold save_one, bind, Match_save, Model_save.
  rewrite Hf. reflexivity.
Qed.

Lemma save_loop_accepted ms : forall c teams table out conn,
  Forall (fun m => match_pk m = None) ms ->
  accepted db_fault teams table ms ->
  for_each ms (save_one db_fault total) c
           (mkWorld (mkDB teams table) out conn)
  = (Ok (c + length ms)%nat,
     mkWorld (mkDB teams (table ++ saved_rows table ms))
             (out ++ progress_lines c (length ms) total) conn).
Proof.
  induction ms as [|m ms IH]; intros c teams table out conn Hpk Hacc.
  - cbn. unfold ret, progress_lines. cbn.
    rewrite !app_nil_r, Nat.add_0_r. reflexivity.
  - inversion Hpk as [|? ? Hm Hms]; subst.
    destruct Hacc as [Hm_acc Hms_acc].
    cbn [for_each]. unfold bind at 1.
    rewrite (save_one_accepted m c teams table out conn Hm Hm_acc).
    rewrite (IH _ _ _ _ _ Hms Hms_acc).
    cbn [length saved_rows].
    rewrite (progress_lines_step c (length ms)), <- !app_assoc.
    replace (c + 1 + length ms)%nat with (c + S (length ms))%nat by lia.
    reflexivity.
Qed.

Lemma save_loop_fault pre m post msg : forall c teams table out conn,
  Forall (fun x => match_pk x = None) pre ->
  accepted db_fault teams table pre ->
  db_fault (mkDB teams (table ++ saved_rows table pre))
           (Match_set_played_from_scores m) = Some msg ->
  for_each (pre ++ m :: post) (save_one db_fault total) c
           (mkWorld (mkDB teams table) out conn)
  = (Raise (DatabaseError msg),
     mkWorld (mkDB teams (table ++ saved_rows table pre))
             (out ++ progress_lines c (length pre) total) conn).
Proof.
  induction pre as [|x pre IH]; intros c teams table out conn Hpk Hacc Hf.
  - cbn [app for_each saved_rows length] in *. unfold bind.
    rewrite app_nil_r in Hf.
    rewrite (save_one_fault m c _ msg) by exact Hf.
    unfold progress_lines. cbn. rewrite !app_nil_r. reflexivity.
  - inversion Hpk as [|? ? Hx Hpre]; subst.
    destruct Hacc as [Hx_acc Hpre_acc].
    cbn [app for_each]. unfold bind at 1.
    rewrite (save_one_accepted x c teams table out conn Hx Hx_acc).
    cbn [saved_rows] in Hf.
    rewrite (IH _ _ _ _ _ Hpre Hpre_acc)
      by (rewrite <- app_assoc; exact Hf).
    cbn [length saved_rows].
    rewrite (progress_lines_step c (length pre)), <- !app_assoc.
    reflexivity.
Qed.
End SaveLoop.

Lemma accepted_no_fault db_fault teams ms : forall table,
  (forall d m, db_fault d m = None) -> accepted db_fault teams table ms.
Proof.
  induction ms as [|m ms IH]; intros table H; cbn; [exact I|].
  split; [apply H | apply IH, H].
Qed.

Lemma saved_rows_length ms : forall table,
  length (saved_rows table ms) = length ms.
Proof.
  induction ms as [|m ms IH]; intros table; cbn; [reflexivity|].
  rewrite IH. reflexivity.
Qed.

Lemma commit_accepted db_fault ms teams table out conn :
  Forall (fun m => match_pk m = None) ms ->
  accepted db_fault teams table ms ->
  commit db_fault ms (mkWorld (mkDB teams table) out conn)
  = (Ok tt,
     mkWorld (mkDB teams (table ++ saved_rows table ms))
             (((out ++ [(NOTICE, Committing (length ms))])
               ++ progress_lines 0 (length ms) (length ms))
              ++ [(SUCCESS, SuccessfullyCreated (length ms))])
             false).
Proof.
  intros Hpk Hacc. unfold commit, bind, write, try_except.
  cbn [db stdout connection_open].
  rewrite (save_loop_accepted db_fault (length ms) ms 0 teams table _ conn
             Hpk Hacc).
  reflexivity.
Qed.

Lemma commit_fault db_fault pre m post msg teams table out conn :
  Forall (fun x => match_pk x = None) pre ->
  accepted db_fault teams table pre ->
  db_fault (mkDB teams (table ++ saved_rows table pre))
           (Match_set_played_from_scores m) = Some msg ->
  commit db_fault (pre ++ m :: post) (mkWorld (mkDB teams table) out conn)
  = (Ok tt,
     mkWorld (mkDB teams (table ++ saved_rows table pre))
             (((out ++ [(NOTICE, Committing (length (pre ++ m :: post)))])
               ++ progress_lines 0 (length pre) (length (pre ++ m :: post)))
              ++ [(ERROR, CriticalSaveError msg)])
             false).
Proof.
  intros Hpk Hacc Hf. unfold commit, bind, write, try_except.
  cbn [db stdout connection_open].
  rewrite (save_loop_fault db_fault (length (pre ++ m :: post)) pre m post msg
             0 teams table _ conn Hpk Hacc Hf).
  reflexivity.
Qed.

(** ** Running the generator *)

Lemma bind_write s t {B} (k : unit -> M B) w :
  bind (write s t) k w
  = k tt (mkWorld (db w) (stdout w ++ [(s, t)]) (connection_open w)).
Proof. reflexivity. Qed.

Lemma bind_query {A B} (q : DB -> A) (k : A -> M B) w :
  bind (query q) k w = k (q (db w)) w.
Proof. reflexivity. Qed.

Lemma bind_ret {A B} (a : A) (k : A -> M B) w : bind (ret a) k w = k a w.
Proof. reflexivity. Qed.

Lemma bind_ok {A B} (c : M A) (k : A -> M B) w a w1 :
  c w = (Ok a, w1) -> bind c k w = k a w1.
Proof. intros H. unfold bind. rewrite H. reflexivity. Qed.

(** With two teams or more, [generate] is its two phases, run once the
    announcements are written. *)
Lemma generate_phases today w all_teams :
  Team_order_by_pk (db w) = all_teams ->
  (2 <= length all_teams)%nat ->
  exists w0,
    same_store w w0 /\
    generate today w
    = bind (generate_first_leg (seats all_teams) (length (seats all_teams))
              (Z.of_nat (length (seats all_teams)) - 1) (start_date today))
           (generate_second_leg (length all_teams)
              (Z.of_nat (length (seats all_teams)) - 1)) w0.
Proof.
  intros <- Hlen. apply Nat.ltb_ge in Hlen.
  unfold generate. rewrite !bind_write, bind_query.
  cbn [db stdout connection_open]. rewrite Hlen, bind_query.
  cbn [db]. destruct (negb _).
  - rewrite !bind_write. cbn [db stdout connection_open].
    eexists. split; [|reflexivity]. split; reflexivity.
  - rewrite bind_ret, bind_write. cbn [db stdout connection_open].
    eexists. split; [|reflexivity]. split; reflexivity.
Qed.

(** What the loops keep true of the matches generated so far. *)
Lemma for_each_invariant {A S} (P : S -> Prop) (xs : list A)
      (body : A -> S -> M S) :
  (forall x s w s' w', P s -> body x s w = (Ok s', w') -> P s') ->
  forall s w s' w',
    P s -> for_each xs body s w = (Ok s', w') -> P s'.
Proof.
  intros Hb. induction xs as [|x xs IH]; intros s w s' w' Hs H.
  - cbn in H. injection H as <- _. exact Hs.
  - cbn [for_each] in H. unfold bind in H.
    destruct (body x s w) as [[s1|e] w1] eqn:E; [|discriminate].
    eapply IH; [|exact H]. eapply Hb; eassumption.
Qed.

Lemma pair_seats_new teams half date i acc w acc' w' :
  Forall new_fixture acc ->
  pair_seats teams half date i acc w = (Ok acc', w') ->
  Forall new_fixture acc'.
Proof.
  intros Hacc. unfold pair_seats, index, bind.
  destruct (nth_error teams i) as [[t1|]|];
    destruct (nth_error teams (i + half)) as [[t2|]|]; cbn;
    intros [= <- _]; try exact Hacc.
  apply Forall_app. split; [exact Hacc|].
  repeat constructor.
Qed.

Lemma first_leg_new teams n rounds start w leg1 w' :
  generate_first_leg teams n rounds start w = (Ok leg1, w') ->
  Forall new_fixture leg1.
Proof.
  unfold generate_first_leg, bind.
  destruct (for_each _ _ _ w) as [[st|e] w1] eqn:E; [|discriminate].
  intros [= <- _].
  refine (for_each_invariant (fun st => Forall new_fixture (snd st))
            _ _ _ _ _ _ _ _ E); [|constructor].
  intros r [[ts d] acc] wa [[ts' d'] acc'] wb Hacc.
  cbn [snd] in *. unfold first_leg_round. rewrite bind_write.
  unfold bind.
  destruct (for_each _ _ acc _) as [[acc1|e] wc] eqn:E1; [|discriminate].
  destruct (rotate ts wc) as [[ts1|e] wd]; [|discriminate].
  intros [= _ _ <- _].
  refine (for_each_invariant (Forall new_fixture) _ _ _ _ _ _ _ Hacc E1).
  intros; eapply pair_seats_new; eassumption.
Qed.

Lemma second_leg_new n rounds leg1 w all w' :
  Forall new_fixture leg1 ->
  generate_second_leg n rounds leg1 w = (Ok all, w') ->
  Forall new_fixture all.
Proof.
  intros Hleg. unfold generate_second_leg.
  destruct (2 <? n)%nat; [|intros [= <- _]; exact Hleg].
  rewrite bind_write.
  apply (for_each_invariant (Forall new_fixture)); [|exact Hleg].
  intros m acc wa acc' wb Hacc. unfold return_fixture. cbv zeta.
  rewrite (bind_write _ _ _ wa). intros [= <- _].
  apply Forall_app. split; [exact Hacc|]. repeat constructor.
Qed.

Lemma for_each_return_fixture rounds ms : forall acc w,
  exists w',
    for_each ms (return_fixture rounds) acc w
    = (Ok (acc ++ map (return_match rounds) ms), w').
Proof.
  induction ms as [|m ms IH]; intros acc w; cbn [for_each map].
  - exists w. rewrite app_nil_r. reflexivity.
  - unfold bind at 1. unfold return_fixture at 1. cbv zeta.
    rewrite (bind_write _ _ _ w). unfold ret at 1. cbv beta iota.
    match goal with
    | |- context [for_each ms _ ?a ?w1] => destruct (IH a w1) as (w' & E)
    end.
    exists w'. rewrite E, <- app_assoc. reflexivity.
Qed.

Lemma second_leg_eq n rounds leg1 w :
  (2 < n)%nat ->
  exists w',
    generate_second_leg n rounds leg1 w
    = (Ok (leg1 ++ map (return_match rounds) leg1), w').
Proof.
  intros Hn. apply Nat.ltb_lt in Hn. unfold generate_second_leg.
  rewrite Hn, bind_write. apply for_each_return_fixture.
Qed.

Lemma second_leg_skipped n rounds leg1 w :
  (n <= 2)%nat -> generate_second_leg n rounds leg1 w = (Ok leg1, w).
Proof.
  intros Hn. unfold generate_second_leg.
  destruct (Nat.ltb_spec 2 n); [lia | reflexivity].
Qed.

Lemma return_match_is_return rounds leg1 :
  Forall2 (is_return_of (rounds * days_between_weeks)) leg1
          (map (return_match rounds) leg1).
Proof.
  induction leg1 as [|m leg1 IH]; cbn [map]; constructor; [|exact IH].
  repeat split.
Qed.

(** Every match that [generate] returns is a freshly constructed fixture. *)
Lemma generate_new today w all w' :
  generate today w = (Ok all, w') -> Forall new_fixture all.
Proof.
  intros H.
  destruct (Nat.ltb_spec (length (Team_order_by_pk (db w))) 2) as [Hlt|Hge].
  - apply Nat.ltb_lt in Hlt. unfold generate in H.
    rewrite !bind_write, bind_query in H.
    cbn [db stdout connection_open] in H. rewrite Hlt in H. discriminate.
  - destruct (generate_phases today w _ eq_refl Hge) as (w0 & _ & E).
    rewrite E in H. unfold bind in H.
    destruct (generate_first_leg _ _ _ _ w0) as [[leg1|e] w1] eqn:E1;
      [|discriminate].
    eapply second_leg_new; [|exact H].
    eapply first_leg_new; exact E1.
Qed.

(** ** The generation never fails on two teams or more *)

Lemma for_each_ok {A S} (P : S -> Prop) (xs : list A)
      (body : A -> S -> M S) :
  (forall x s w, In x xs -> P s ->
                 exists s' w', body x s w = (Ok s', w') /\ P s') ->
  forall s w, P s -> exists s' w', for_each xs body s w = (Ok s', w') /\ P s'.
Proof.
  induction xs as [|x xs IH]; intros Hb s w Hs; cbn [for_each].
  - exists s, w. split; [reflexivity | exact Hs].
  - destruct (Hb x s w (or_introl eq_refl) Hs) as (s1 & w1 & E1 & Hs1).
    rewrite (bind_ok _ _ _ _ _ E1).
    apply IH; [|exact Hs1].
    intros y s2 w2 Hy. apply Hb. right. exact Hy.
Qed.

Lemma pair_seats_ok teams half date i acc w :
  (i + half < length teams)%nat ->
  exists acc' w', pair_seats teams half date i acc w = (Ok acc', w').
Proof.
  intros Hi. unfold pair_seats, index.
  destruct (nth_error teams i) as [team1|] eqn:E1;
    [|apply nth_error_None in E1; lia].
  destruct (nth_error teams (i + half)) as [team2|] eqn:E2;
    [|apply nth_error_None in E2; lia].
  rewrite !bind_ret.
  destruct team1 as [team1|], team2 as [team2|];
    eexists; eexists; reflexivity.
Qed.

Lemma rotate_ok teams w :
  teams <> [] ->
  exists teams', rotate teams w = (Ok teams', w)
                 /\ length teams' = length teams.
Proof.
  intros Hne. unfold rotate, pop.
  destruct (rev teams) as [|x r] eqn:E.
  - apply (f_equal (@rev _)) in E. rewrite rev_involutive in E.
    contradiction.
  - rewrite bind_ret. eexists. split; [reflexivity|].
    cbn [fst snd]. unfold insert_at_1.
    rewrite length_app. cbn [length].
    assert (H1 : length teams = S (length r))
      by (rewrite <- (length_rev teams), E; reflexivity).
    assert (H2 : (length (firstn 1 (rev r)) + length (skipn 1 (rev r))
                  = length r)%nat)
      by (rewrite <- length_app, firstn_skipn; apply length_rev).
    lia.
Qed.

Lemma first_leg_round_ok n r teams date acc w :
  length teams = n -> (0 < n)%nat ->
  exists teams' date' acc' w',
    first_leg_round n r (teams, date, acc) w
    = (Ok (teams', date', acc'), w') /\ length teams' = n.
Proof.
  intros Hlen Hpos. unfold first_leg_round.
  rewrite (bind_write _ _ _ w). cbv zeta.
  match goal with
  | |- context [bind (for_each ?xs ?body acc) _ ?w0] =>
      destruct (for_each_ok (fun _ => True) xs body) with (s := acc) (w := w0)
        as (acc' & w1 & E1 & _); [|exact I|]
  end.
  - intros i acc0 w0 Hi _. unfold range in Hi. rewrite Nat2Z.id in Hi.
    apply in_seq in Hi.
    match goal with
    | |- context [pair_seats _ _ ?d] =>
        destruct (pair_seats_ok teams (n / 2) d i acc0 w0) as (a & w' & E)
    end.
    + pose proof (Nat.div_mod_eq n 2). lia.
    + exists a, w'. split; [exact E | exact I].
  - rewrite (bind_ok _ _ _ _ _ E1).
    destruct (rotate_ok teams w1) as (teams' & E2 & Hlen').
    { intros ->. cbn in Hlen. lia. }
    rewrite (bind_ok _ _ _ _ _ E2).
    eexists; eexists; eexists; eexists. split; [reflexivity|]. lia.
Qed.

Lemma first_leg_ok teams rounds start w :
  (0 < length teams)%nat ->
  exists leg1 w',
    generate_first_leg teams (length teams) rounds start w = (Ok leg1, w').
Proof.
  intros Hpos. unfold generate_first_leg.
  destruct (for_each_ok
              (fun st : list (option Team) * datetime * list Match =>
                 length (fst (fst st)) = length teams)
              (range rounds) (first_leg_round (length teams)))
    with (s := (teams, start, @nil Match)) (w := w)
    as (st & w' & E & _); [|reflexivity|].
  - intros r [[ts d] acc] w0 _ Hts. cbn [fst] in Hts.
    destruct (first_leg_round_ok (length teams) r ts d acc w0 Hts Hpos)
      as (ts' & d' & acc' & w1 & E & Hlen).
    exists (ts', d', acc'), w1. split; [exact E | exact Hlen].
  - rewrite (bind_ok _ _ _ _ _ E). eexists; eexists; reflexivity.
Qed.

Lemma second_leg_ok n rounds leg1 w :
  exists all w', generate_second_leg n rounds leg1 w = (Ok all, w').
Proof.
  destruct (Nat.ltb_spec 2 n) as [Hn|Hn].
  - destruct (second_leg_eq n rounds leg1 w Hn) as (w' & E).
    eexists; exists w'; exact E.
  - rewrite second_leg_skipped by exact Hn. eexists; eexists; reflexivity.
Qed.

Lemma seats_length all_teams : (length all_teams <= length (seats all_teams))%nat.
Proof.
  unfold seats. destruct (negb _); rewrite ?length_app, length_map; lia.
Qed.

(** From two teams or more, [generate] returns its list of matches. *)
Lemma generate_ok today w :
  (2 <= length (team_table (db w)))%nat ->
  exists all w1, generate today w = (Ok all, w1) /\ same_store w w1.
Proof.
  intros Hlen. rewrite <- Team_order_by_pk_length in Hlen.
  destruct (generate_phases today w _ eq_refl Hlen) as (w0 & _ & E).
  pose proof (seats_length (Team_order_by_pk (db w))) as Hs.
  destruct (first_leg_ok (seats (Team_order_by_pk (db w)))
              (Z.of_nat (length (seats (Team_order_by_pk (db w)))) - 1)
              (start_date today) w0) as (leg1 & w1 & E1); [lia|].
  rewrite (bind_ok _ _ _ _ _ E1) in E.
  match type of E with
  | _ = generate_second_leg ?n ?r _ _ =>
      destruct (second_leg_ok n r leg1 w1) as (all & w2 & E2)
  end.
  rewrite E2 in E. exists all, w2. split; [exact E|].
  eapply generate_same_store; exact E.
Qed.

(** ** The rows of new fixtures *)

Lemma new_fixture_unchanged m :
  new_fixture m -> Match_set_played_from_scores m = m.
Proof.
  destruct m as [pk h a d hs as_ p]. unfold new_fixture. cbn.
  intros (-> & -> & -> & ->). reflexivity.
Qed.

Lemma saved_rows_new ms : forall table,
  Forall new_fixture ms ->
  map (fun r => set_match_pk r None) (saved_rows table ms) = ms /\
  Forall (fun r => is_played r = false) (saved_rows table ms).
Proof.
  induction ms as [|m ms IH]; intros table H; cbn [saved_rows map].
  - split; constructor.
  - inversion H as [|? ? Hm Hms]; subst.
    rewrite (new_fixture_unchanged m Hm).
    destruct (IH (table ++ [set_match_pk m (Some (fresh_pk table))]) Hms)
      as [IH1 IH2].
    rewrite IH1. split.
    + f_equal. destruct m as [pk h a d hs as_ p].
      destruct Hm as (Hpk & _). cbn in *. subst pk. reflexivity.
    + constructor; [apply Hm | exact IH2].
Qed.

Lemma fold_max_ge (l : list Z) x : In x l -> x <= fold_right Z.max 0 l.
Proof.
  induction l as [|y l IH]; intros H; [destruct H|].
  cbn [fold_right]. destruct H as [->|H]; [lia|].
  specialize (IH H). lia.
Qed.

Lemma fresh_pk_gt table old :
  In old table -> pk_or_zero old < fresh_pk table.
Proof.
  intros H. unfold fresh_pk.
  pose proof (fold_max_ge (map pk_or_zero table) (pk_or_zero old)
                          (in_map _ _ _ H)).
  lia.
Qed.

(** Each saved row gets a key that no row of the table had. *)
Lemma saved_rows_keys ms : forall table,
  Forall (fun r => exists k,
              match_pk r = Some k /\
              forall old, In old table -> match_pk old <> Some k)
         (saved_rows table ms).
Proof.
  induction ms as [|m ms IH]; intros table; cbn [saved_rows];
    constructor.
  - exists (fresh_pk table). split; [reflexivity|].
    intros old Hold Hk. apply fresh_pk_gt in Hold.
    unfold pk_or_zero in Hold. rewrite Hk in Hold. lia.
  - eapply Forall_impl; [|apply IH].
    intros r (k & Hk & Hfresh). exists k. split; [exact Hk|].
    intros old Hold. apply Hfresh, in_or_app. left. exact Hold.
Qed.

Lemma handle_accepted db_fault today w all w1 :
  generate today w = (Ok all, w1) ->
  accepted db_fault (team_table (db w)) (match_table (db w)) all ->
  exists w',
    handle db_fault today w = (Ok tt, w') /\
    db w' = mkDB (team_table (db w))
                 (match_table (db w) ++ saved_rows (match_table (db w)) all) /\
    connection_open w' = false.
Proof.
  intros Hgen Hacc. unfold handle. rewrite (bind_ok _ _ _ _ _ Hgen).
  destruct (generate_same_store _ _ _ _ Hgen) as [Hdb _].
  pose proof (generate_new _ _ _ _ Hgen) as Hnew.
  destruct w1 as [[teams1 table1] out1 conn1]. cbn [db] in Hdb.
  rewrite <- Hdb in *. cbn [team_table match_table] in *.
  rewrite commit_accepted; [eexists; repeat split | | exact Hacc].
  eapply Forall_impl; [|exact Hnew]. intros m Hm. apply Hm.
Qed.

(** ** Four teams *)

Lemma first_leg_four t1 t2 t3 t4 start w :
  exists w',
    generate_first_leg [Some t1; Some t2; Some t3; Some t4] 4 3 start w
    = (Ok [ new_Match t1 t3 start false;
            new_Match t2 t4 start false;
            new_Match t1 t2 (add_days start 7) false;
            new_Match t4 t3 (add_days start 7) false;
            new_Match t1 t4 (add_days (add_days start 7) 7) false;
            new_Match t3 t2 (add_days (add_days start 7) 7) false ],
       w').
Proof. eexists. reflexivity. Qed.

Lemma generate_four today w t1 t2 t3 t4 :
  Team_order_by_pk (db w) = [t1; t2; t3; t4] ->
  exists leg1 w1,
    (forall w0,
        fst (generate_first_leg (seats [t1; t2; t3; t4]) 4 3
                                (start_date today) w0) = Ok leg1) /\
    generate today w = (Ok (leg1 ++ map (return_match 3) leg1), w1) /\
    leg1 = [ new_Match t1 t3 (start_date today) false;
             new_Match t2 t4 (start_date today) false;
             new_Match t1 t2 (add_days (start_date today) 7) false;
             new_Match t4 t3 (add_days (start_date today) 7) false;
             new_Match t1 t4 (add_days (add_days (start_date today) 7) 7) false;
             new_Match t3 t2 (add_days (add_days (start_date today) 7) 7) false ].
Proof.
  intros Hteams.
  destruct (generate_phases today w _ Hteams) as (w0 & _ & E);
    [cbn; lia|].
  change (seats [t1; t2; t3; t4])
    with [Some t1; Some t2; Some t3; Some t4] in *.
  cbn [length] in E. change (Z.of_nat 4 - 1) with 3 in E.
  destruct (first_leg_four t1 t2 t3 t4 (start_date today) w0) as (w1 & E1).
  rewrite (bind_ok _ _ _ _ _ E1) in E.
  match type of E with
  | _ = generate_second_leg _ _ ?l _ =>
      destruct (second_leg_eq 4 3 l w1 ltac:(lia)) as (w2 & E2)
  end.
  rewrite E2 in E.
  eexists. exists w2. split; [|split; [exact E|reflexivity]].
  intros w'. destruct (first_leg_four t1 t2 t3 t4 (start_date today) w')
    as (w'' & E'').
  rewrite E''. reflexivity.
Qed.

Lemma fixture_count_app a b l1 l2 :
  fixture_count a b (l1 ++ l2)
  = (fixture_count a b l1 + fixture_count a b l2)%nat.
Proof. unfold fixture_count. rewrite filter_app, length_app. reflexivity. Qed.

(** The return fixtures of a list are its matches with the sides swapped. *)
Lemma fixture_count_return rounds a b l :
  fixture_count a b (map (return_match rounds) l) = fixture_count b a l.
Proof.
  unfold fixture_count. induction l as [|m l IH]; [reflexivity|].
  cbn [map filter return_match new_Match home_team away_team].
  rewrite (andb_comm (Team_eq (away_team m) a)).
  destruct (Team_eq (home_team m) b && Team_eq (away_team m) a);
    cbn [length]; rewrite IH; reflexivity.
Qed.

Ltac distinct_keys H :=
  repeat match type of H with
         | NoDup (_ :: _) =>
             let Hn := fresh "Hn" in
             apply NoDup_cons_iff in H; destruct H as [Hn H];
             cbn [In map] in Hn
         end;
  clear H.

Ltac team_eq_false :=
  match goal with
  | |- (?x =? ?y) = false =>
      apply Z.eqb_neq; intros Heq; intuition congruence
  end.

(** C1.  From four teams, when the store accepts every write, the command
    generates six first-leg matches and their six return fixtures; each
    ordered pair of distinct teams meets exactly once with the first at home
    (so each unordered pair meets twice, sides swapped), once per leg; and
    the twelve matches are appended to the store as new rows, each under a
    key no earlier row had and with [is_played] false. *)
Theorem four_teams_double_round_robin
        (db_fault : DB -> Match -> option string) (today : Z) (w : World)
        (t1 t2 t3 t4 : Team) :
  Team_order_by_pk (db w) = [t1; t2; t3; t4] ->
  NoDup (map team_pk [t1; t2; t3; t4]) ->
  (forall d m, db_fault d m = None) ->
  exists leg1 leg2 rows w',
    (forall w0,
        fst (generate_first_leg (seats [t1; t2; t3; t4]) 4 3
                                (start_date today) w0) = Ok leg1) /\
    (forall w0, fst (generate_second_leg 4 3 leg1 w0) = Ok (leg1 ++ leg2)) /\
    length leg1 = 6%nat /\ length leg2 = 6%nat /\
    handle db_fault today w = (Ok tt, w') /\
    match_table (db w') = match_table (db w) ++ rows /\
    map (fun r => set_match_pk r None) rows = leg1 ++ leg2 /\
    Forall (fun r => is_played r = false) rows /\
    Forall (fun r => exists k,
                match_pk r = Some k /\
                forall old, In old (match_table (db w)) ->
                            match_pk old <> Some k) rows /\
    forall a b,
      In a [t1; t2; t3; t4] -> In b [t1; t2; t3; t4] ->
      team_pk a <> team_pk b ->
      (fixture_count a b leg1 + fixture_count b a leg1 = 1)%nat /\
      (fixture_count a b leg2 + fixture_count b a leg2 = 1)%nat /\
      fixture_count a b leg2 = fixture_count b a leg1 /\
      fixture_count a b (leg1 ++ leg2) = 1%nat.
Proof.
  intros Hteams Hnd Hok.
  destruct (generate_four today w t1 t2 t3 t4 Hteams)
    as (leg1 & w1 & Hleg1 & Hgen & Hlist).
  destruct (handle_accepted db_fault today w _ w1 Hgen
              (accepted_no_fault _ _ _ _ Hok)) as (w' & Hrun & Hdb & _).
  pose proof (generate_new _ _ _ _ Hgen) as Hnew.
  destruct (saved_rows_new _ (match_table (db w)) Hnew) as [Hmap Hplayed].
  exists leg1, (map (return_match 3) leg1),
    (saved_rows (match_table (db w)) (leg1 ++ map (return_match 3) leg1)), w'.
  split; [exact Hleg1|]. split.
  { intros w0. destruct (second_leg_eq 4 3 leg1 w0 ltac:(lia)) as (w2 & E).
    rewrite E. reflexivity. }
  split; [rewrite Hlist; reflexivity|].
  split; [rewrite Hlist; reflexivity|].
  split; [exact Hrun|].
  split; [rewrite Hdb; reflexivity|].
  split; [exact Hmap|]. split; [exact Hplayed|].
  split; [apply saved_rows_keys|].
  cbn [map] in Hnd. distinct_keys Hnd.
  assert (E12 : (team_pk t1 =? team_pk t2) = false) by team_eq_false.
  assert (E13 : (team_pk t1 =? team_pk t3) = false) by team_eq_false.
  assert (E14 : (team_pk t1 =? team_pk t4) = false) by team_eq_false.
  assert (E23 : (team_pk t2 =? team_pk t3) = false) by team_eq_false.
  assert (E24 : (team_pk t2 =? team_pk t4) = false) by team_eq_false.
  assert (E34 : (team_pk t3 =? team_pk t4) = false) by team_eq_false.
  assert (E21 : (team_pk t2 =? team_pk t1) = false)
    by (rewrite Z.eqb_sym; exact E12).
  assert (E31 : (team_pk t3 =? team_pk t1) = false)
    by (rewrite Z.eqb_sym; exact E13).
  assert (E41 : (team_pk t4 =? team_pk t1) = false)
    by (rewrite Z.eqb_sym; exact E14).
  assert (E32 : (team_pk t3 =? team_pk t2) = false)
    by (rewrite Z.eqb_sym; exact E23).
  assert (E42 : (team_pk t4 =? team_pk t2) = false)
    by (rewrite Z.eqb_sym; exact E24).
  assert (E43 : (team_pk t4 =? team_pk t3) = false)
    by (rewrite Z.eqb_sym; exact E34).
  intros a b Ha Hb Hab.
  rewrite fixture_count_app, !fixture_count_return.
  assert (H1 : (fixture_count a b leg1 + fixture_count b a leg1 = 1)%nat);
    [|lia].
  rewrite Hlist. unfold fixture_count, Team_eq, new_Match.
  cbn [filter home_team away_team].
  cbn [In] in Ha, Hb.
  destruct Ha as [<-|[<-|[<-|[<-|[]]]]];
    destruct Hb as [<-|[<-|[<-|[<-|[]]]]];
    try (exfalso; apply Hab; reflexivity);
    rewrite ?Z.eqb_refl, ?E12, ?E13, ?E14, ?E23, ?E24, ?E34,
            ?E21, ?E31, ?E41, ?E32, ?E42, ?E43;
    reflexivity.
Qed.

Lemma four_teams_double_round_robin_witness :
  exists w',
    handle no_fault 100 (league [tA; tB; tC; tD]) = (Ok tt, w') /\
    length (match_table (db w')) = 12%nat.
Proof.
  destruct (four_teams_double_round_robin no_fault 100
              (league [tA; tB; tC; tD]) tA tB tC tD)
    as (leg1 & leg2 & rows & w' & _ & _ & H1 & H2 & Hrun & Htab & Hmap & _).
  - reflexivity.
  - repeat constructor; cbn; intuition discriminate.
  - intros d m. reflexivity.
  - exists w'. split; [exact Hrun|].
    rewrite Htab. cbn [league db match_table app].
    rewrite <- (length_map (fun r => set_match_pk r None)), Hmap.
    rewrite length_app, H1, H2. reflexivity.
Defined.

Lemma add_days_add d a b : add_days (add_days d a) b = add_days d (a + b).
Proof. unfold add_days. cbn. f_equal. lia. Qed.

(** C4 (amended).  From four teams, with [start] tomorrow at midnight and
    timezone-aware, the three first-leg rounds are dated [start],
    [start + 7d] and [start + 2*7d]: the loop has that date, and the round's
    two matches, after one, two and three rounds.  Every second-leg match is
    the return of its first-leg match, dated that match's own date plus
    [3*7d]. *)
Theorem four_teams_dates (today : Z) (w : World) (t1 t2 t3 t4 : Team) :
  Team_order_by_pk (db w) = [t1; t2; t3; t4] ->
  let start := start_date today in
  start = mkDatetime (today + 1) 0 0 true /\
  exists leg1 leg2 w1,
    generate today w = (Ok (leg1 ++ leg2), w1) /\
    (forall w0,
        fst (generate_first_leg (seats [t1; t2; t3; t4]) 4 3 start w0)
        = Ok leg1) /\
    (forall w0, exists teams,
        fst (for_each (range 1) (first_leg_round 4)
                      (seats [t1; t2; t3; t4], start, []) w0)
        = Ok (teams, start, firstn 2 leg1)) /\
    (forall w0, exists teams,
        fst (for_each (range 2) (first_leg_round 4)
                      (seats [t1; t2; t3; t4], start, []) w0)
        = Ok (teams, add_days start 7, firstn 4 leg1)) /\
    (forall w0, exists teams,
        fst (for_each (range 3) (first_leg_round 4)
                      (seats [t1; t2; t3; t4], start, []) w0)
        = Ok (teams, add_days start (2 * 7), leg1)) /\
    map match_date leg1
    = [start; start; add_days start 7; add_days start 7;
       add_days start (2 * 7); add_days start (2 * 7)] /\
    Forall2 (is_return_of (3 * 7)) leg1 leg2.
Proof.
  intros Hteams start. split; [reflexivity|].
  destruct (generate_four today w t1 t2 t3 t4 Hteams)
    as (leg1 & w1 & Hleg1 & Hgen & Hlist).
  exists leg1, (map (return_match 3) leg1), w1.
  split; [exact Hgen|]. split; [exact Hleg1|].
  assert (E : add_days (add_days start 7) 7 = add_days start (2 * 7))
    by apply add_days_add.
  fold start in Hlist. rewrite E in Hlist. subst leg1.
  split; [intros w0; eexists; reflexivity|].
  split; [intros w0; eexists; reflexivity|].
  split; [intros w0; eexists; rewrite <- E; reflexivity|].
  split; [reflexivity|].
  apply (return_match_is_return 3).
Qed.

Lemma four_teams_dates_witness :
  exists leg1 leg2 w1,
    generate 100 (league [tA; tB; tC; tD]) = (Ok (leg1 ++ leg2), w1) /\
    map (fun m => dt_day (match_date m)) leg1
    = [101; 101; 108; 108; 115; 115] /\
    Forall2 (is_return_of 21) leg1 leg2.
Proof.
  destruct (four_teams_dates 100 (league [tA; tB; tC; tD]) tA tB tC tD)
    as (_ & leg1 & leg2 & w1 & Hgen & _ & _ & _ & _ & Hdates & Hret).
  - reflexivity.
  - exists leg1, leg2, w1. split; [exact Hgen|]. split; [|exact Hret].
    rewrite <- (map_map match_date dt_day), Hdates. reflexivity.
Defined.

(** C4, as stated, fails: from teams A, B, C, D with today = day 100, the
    third round is played on day 115, two weeks after the start (day 101),
    not on day 122, three weeks after it. *)
Lemma third_round_two_weeks_after_start :
  let w' := snd (handle no_fault 100 (league [tA; tB; tC; tD])) in
  let start := start_date 100 in
  let leg1_dates := map match_date (firstn 6 (match_table (db w'))) in
  leg1_dates = [start; start; add_days start 7; add_days start 7;
                add_days start 14; add_days start 14] /\
  leg1_dates <> [start; start; add_days start 7; add_days start 7;
                 add_days start (3 * 7); add_days start (3 * 7)].
Proof. vm_compute. split; [reflexivity | discriminate]. Qed.

(** ** Two teams *)

(** C6 (amended).  From exactly two teams the command generates and saves
    the single first-leg match, the first team at home on the start date,
    and no return fixture: the second leg is generated only from more than
    two teams. *)
Theorem two_teams_single_leg
        (db_fault : DB -> Match -> option string) (today : Z) (w : World)
        (t1 t2 : Team) :
  Team_order_by_pk (db w) = [t1; t2] ->
  (forall d m, db_fault d m = None) ->
  exists w',
    generate today w
    = (Ok [new_Match t1 t2 (start_date today) false], w') /\
    (forall leg1 w0, generate_second_leg 2 1 leg1 w0 = (Ok leg1, w0)) /\
    exists w'',
      handle db_fault today w = (Ok tt, w'') /\
      match_table (db w'')
      = match_table (db w)
        ++ [mkMatch (Some (fresh_pk (match_table (db w)))) t1 t2
                    (start_date today) 0 0 false].
Proof.
  intros Hteams Hok.
  destruct (generate_phases today w _ Hteams) as (w0 & _ & E);
    [cbn; lia|].
  change (seats [t1; t2]) with [Some t1; Some t2] in E.
  cbn [length] in E. change (Z.of_nat 2 - 1) with 1 in E.
  assert (Hgen : exists w1, generate today w
                   = (Ok [new_Match t1 t2 (start_date today) false], w1)).
  { rewrite E. eexists. reflexivity. }
  destruct Hgen as (w1 & Hgen).
  exists w1. split; [exact Hgen|].
  split; [intros; apply second_leg_skipped; lia|].
  destruct (handle_accepted db_fault today w _ w1 Hgen
              (accepted_no_fault _ _ _ _ Hok)) as (w' & Hrun & Hdb & _).
  exists w'. split; [exact Hrun|]. rewrite Hdb. reflexivity.
Qed.

Lemma two_teams_single_leg_witness :
  exists w'',
    handle no_fault 100 (league [tA; tB]) = (Ok tt, w'') /\
    match_table (db w'')
    = [mkMatch (Some 1) tA tB (start_date 100) 0 0 false].
Proof.
  destruct (two_teams_single_leg no_fault 100 (league [tA; tB]) tA tB)
    as (_ & _ & _ & w'' & Hrun & Htab).
  - reflexivity.
  - intros d m. reflexivity.
  - exists w''. split; [exact Hrun | exact Htab].
Defined.

(** C6, as stated, fails: from the two teams A and B the store ends with
    the one match A against B and no match with B at home. *)
Lemma two_teams_no_return_fixture :
  let r := handle no_fault 100 (league [tA; tB]) in
  fst r = Ok tt /\
  map (fun m => (home_team m, away_team m)) (match_table (db (snd r)))
  = [(tA, tB)] /\
  fixture_count tB tA (match_table (db (snd r))) = 0%nat.
Proof. vm_compute. repeat split. Qed.

(** ** Five teams: the bye *)

Lemma app_cons_snoc {A} (l : list A) x r : l ++ x :: r = (l ++ [x]) ++ r.
Proof. rewrite <- app_assoc. reflexivity. Qed.

Ltac run_round_exact :=
  intros;
  match goal with
  | |- _ = (Ok (_, _, ?acc ++ [?m1; ?m2]),
            mkWorld _ (?out ++ [?a; ?b; ?c]) _) =>
      replace (acc ++ [m1; m2]) with ((acc ++ [m1]) ++ [m2])
        by (rewrite <- app_assoc; reflexivity);
      replace (out ++ [a; b; c]) with (((out ++ [a]) ++ [b]) ++ [c])
        by (rewrite <- !app_assoc; reflexivity)
  end;
  cbv -[Z.add app]; reflexivity.

Section FiveTeams.
Variables t1 t2 t3 t4 t5 : Team.

Lemma five_round_1 d acc db0 out conn :
  first_leg_round 6 0
    ([Some t1; Some t2; Some t3; Some t4; Some t5; None], d, acc)
    (mkWorld db0 out conn)
  = (Ok ([Some t1; None; Some t2; Some t3; Some t4; Some t5], d,
         acc ++ [new_Match t1 t4 d false; new_Match t2 t5 d false]),
     mkWorld db0
       (out ++ [(PLAIN, RoundHeader 1 (dt_day d));
                (PLAIN, Fixture (team_name t1) (team_name t4));
                (PLAIN, Fixture (team_name t2) (team_name t5))]) conn).
Proof. run_round_exact. Qed.

Lemma five_round_2 d acc db0 out conn :
  first_leg_round 6 1
    ([Some t1; None; Some t2; Some t3; Some t4; Some t5], d, acc)
    (mkWorld db0 out conn)
  = (Ok ([Some t1; Some t5; None; Some t2; Some t3; Some t4], add_days d 7,
         acc ++ [new_Match t1 t3 (add_days d 7) false;
                 new_Match t2 t5 (add_days d 7) false]),
     mkWorld db0
       (out ++ [(PLAIN, RoundHeader 2 (dt_day (add_days d 7)));
                (PLAIN, Fixture (team_name t1) (team_name t3));
                (PLAIN, Fixture (team_name t2) (team_name t5))]) conn).
Proof. run_round_exact. Qed.

Lemma five_round_3 d acc db0 out conn :
  first_leg_round 6 2
    ([Some t1; Some t5; None; Some t2; Some t3; Some t4], d, acc)
    (mkWorld db0 out conn)
  = (Ok ([Some t1; Some t4; Some t5; None; Some t2; Some t3], add_days d 7,
         acc ++ [new_Match t1 t2 (add_days d 7) false;
                 new_Match t5 t3 (add_days d 7) false]),
     mkWorld db0
       (out ++ [(PLAIN, RoundHeader 3 (dt_day (add_days d 7)));
                (PLAIN, Fixture (team_name t1) (team_name t2));
                (PLAIN, Fixture (team_name t5) (team_name t3))]) conn).
Proof. run_round_exact. Qed.

Lemma five_round_4 d acc db0 out conn :
  first_leg_round 6 3
    ([Some t1; Some t4; Some t5; None; Some t2; Some t3], d, acc)
    (mkWorld db0 out conn)
  = (Ok ([Some t1; Some t3; Some t4; Some t5; None; Some t2], add_days d 7,
         acc ++ [new_Match t4 t2 (add_days d 7) false;
                 new_Match t5 t3 (add_days d 7) false]),
     mkWorld db0
       (out ++ [(PLAIN, RoundHeader 4 (dt_day (add_days d 7)));
                (PLAIN, Fixture (team_name t4) (team_name t2));
                (PLAIN, Fixture (team_name t5) (team_name t3))]) conn).
Proof. run_round_exact. Qed.

Lemma five_round_5 d acc db0 out conn :
  first_leg_round 6 4
    ([Some t1; Some t3; Some t4; Some t5; None; Some t2], d, acc)
    (mkWorld db0 out conn)
  = (Ok ([Some t1; Some t2; Some t3; Some t4; Some t5; None], add_days d 7,
         acc ++ [new_Match t1 t5 (add_days d 7) false;
                 new_Match t4 t2 (add_days d 7) false]),
     mkWorld db0
       (out ++ [(PLAIN, RoundHeader 5 (dt_day (add_days d 7)));
                (PLAIN, Fixture (team_name t1) (team_name t5));
                (PLAIN, Fixture (team_name t4) (team_name t2))]) conn).
Proof. run_round_exact. Qed.

(** The first leg of five teams: the matches, and the lines written, round
    by round. *)
Lemma five_first_leg start db0 out conn :
  let d1 := add_days start 7 in
  let d2 := add_days start (2 * 7) in
  let d3 := add_days start (3 * 7) in
  let d4 := add_days start (4 * 7) in
  generate_first_leg
    [Some t1; Some t2; Some t3; Some t4; Some t5; None] 6 5 start
    (mkWorld db0 out conn)
  = (Ok [ new_Match t1 t4 start false; new_Match t2 t5 start false;
          new_Match t1 t3 d1 false; new_Match t2 t5 d1 false;
          new_Match t1 t2 d2 false; new_Match t5 t3 d2 false;
          new_Match t4 t2 d3 false; new_Match t5 t3 d3 false;
          new_Match t1 t5 d4 false; new_Match t4 t2 d4 false ],
     mkWorld db0
       (out ++
        [ (PLAIN, RoundHeader 1 (dt_day start));
          (PLAIN, Fixture (team_name t1) (team_name t4));
          (PLAIN, Fixture (team_name t2) (team_name t5));
          (PLAIN, RoundHeader 2 (dt_day d1));
          (PLAIN, Fixture (team_name t1) (team_name t3));
          (PLAIN, Fixture (team_name t2) (team_name t5));
          (PLAIN, RoundHeader 3 (dt_day d2));
          (PLAIN, Fixture (team_name t1) (team_name t2));
          (PLAIN, Fixture (team_name t5) (team_name t3));
          (PLAIN, RoundHeader 4 (dt_day d3));
          (PLAIN, Fixture (team_name t4) (team_name t2));
          (PLAIN, Fixture (team_name t5) (team_name t3));
          (PLAIN, RoundHeader 5 (dt_day d4));
          (PLAIN, Fixture (team_name t1) (team_name t5));
          (PLAIN, Fixture (team_name t4) (team_name t2)) ])
       conn).
Proof.
  intros d1 d2 d3 d4.
  assert (E2 : add_days d1 7 = d2) by apply add_days_add.
  assert (E3 : add_days d2 7 = d3) by apply add_days_add.
  assert (E4 : add_days d3 7 = d4) by apply add_days_add.
  unfold generate_first_leg, range. change (Z.to_nat 5) with 5%nat.
  cbn [seq for_each]. unfold bind at 1.
  rewrite (bind_ok _ _ _ _ _ (five_round_1 _ _ _ _ _)).
  rewrite (bind_ok _ _ _ _ _ (five_round_2 _ _ _ _ _)).
  rewrite (bind_ok _ _ _ _ _ (five_round_3 _ _ _ _ _)).
  rewrite (bind_ok _ _ _ _ _ (five_round_4 _ _ _ _ _)).
  rewrite (bind_ok _ _ _ _ _ (five_round_5 _ _ _ _ _)).
  fold d1. rewrite E2, E3, E4.
  unfold ret. cbn [snd app]. rewrite <- !app_assoc. reflexivity.
Qed.
End FiveTeams.

(** The lines of the second leg. *)
Lemma return_fixtures_run rounds ms : forall acc db0 out conn,
  for_each ms (return_fixture rounds) acc (mkWorld db0 out conn)
  = (Ok (acc ++ map (return_match rounds) ms),
     mkWorld db0
       (out ++ map (fun m => (PLAIN,
                              ReturnFixture (team_name (away_team m))
                                            (team_name (home_team m)))) ms)
       conn).
Proof.
  induction ms as [|m ms IH]; intros acc db0 out conn; cbn [for_each map].
  - unfold ret. rewrite !app_nil_r. reflexivity.
  - unfold bind at 1. unfold return_fixture at 1. cbv zeta.
    rewrite (bind_write _ _ _ (mkWorld db0 out conn)).
    unfold ret at 1. cbv beta iota. cbn [db stdout connection_open].
    rewrite IH, <- !app_assoc. reflexivity.
Qed.

(** C7.  From five teams the command seats the five teams and a bye, six
    seats, and plays five rounds.  Its first leg is ten matches, 5*4/2:
    two in each round, on the date of the round, the team seated opposite
    the bye being idle; the lines it writes show each round with its two
    fixtures.  The second leg mirrors them, and all twenty are what the
    command saves. *)
Theorem five_teams_bye
        (db_fault : DB -> Match -> option string) (today : Z) (w : World)
        (t1 t2 t3 t4 t5 : Team) :
  Team_order_by_pk (db w) = [t1; t2; t3; t4; t5] ->
  let bye : option Team := None in
  let start := start_date today in
  let d1 := add_days start 7 in
  let d2 := add_days start (2 * 7) in
  let d3 := add_days start (3 * 7) in
  let d4 := add_days start (4 * 7) in
  let leg1 :=
    [ new_Match t1 t4 start false; new_Match t2 t5 start false;
      new_Match t1 t3 d1 false; new_Match t2 t5 d1 false;
      new_Match t1 t2 d2 false; new_Match t5 t3 d2 false;
      new_Match t4 t2 d3 false; new_Match t5 t3 d3 false;
      new_Match t1 t5 d4 false; new_Match t4 t2 d4 false ] in
  seats [t1; t2; t3; t4; t5]
  = [Some t1; Some t2; Some t3; Some t4; Some t5; bye] /\
  length (seats [t1; t2; t3; t4; t5]) = 6%nat /\
  length leg1 = 10%nat /\ length leg1 = (5 * 4 / 2)%nat /\
  (exists w1,
      generate today w = (Ok (leg1 ++ map (return_match 5) leg1), w1) /\
      same_store w w1 /\
      stdout w1
      = stdout w
        ++ [ (NOTICE, StartingGeneration);
             (SUCCESS, StartDateSetTo (dt_day start));
             (SUCCESS, MatchDaysSeparatedBy 7) ]
        ++ (if (length (match_table (db w)) =? 0)%nat then []
            else [(WARNING, ExistingMatchesFound)])
        ++ [ (SUCCESS, GeneratingFirstLeg 5);
             (PLAIN, RoundHeader 1 (dt_day start));
             (PLAIN, Fixture (team_name t1) (team_name t4));
             (PLAIN, Fixture (team_name t2) (team_name t5));
             (PLAIN, RoundHeader 2 (dt_day d1));
             (PLAIN, Fixture (team_name t1) (team_name t3));
             (PLAIN, Fixture (team_name t2) (team_name t5));
             (PLAIN, RoundHeader 3 (dt_day d2));
             (PLAIN, Fixture (team_name t1) (team_name t2));
             (PLAIN, Fixture (team_name t5) (team_name t3));
             (PLAIN, RoundHeader 4 (dt_day d3));
             (PLAIN, Fixture (team_name t4) (team_name t2));
             (PLAIN, Fixture (team_name t5) (team_name t3));
             (PLAIN, RoundHeader 5 (dt_day d4));
             (PLAIN, Fixture (team_name t1) (team_name t5));
             (PLAIN, Fixture (team_name t4) (team_name t2));
             (SUCCESS, GeneratingSecondLeg) ]
        ++ map (fun m => (PLAIN,
                          ReturnFixture (team_name (away_team m))
                                        (team_name (home_team m)))) leg1) /\
  (forall w0,
      fst (generate_first_leg (seats [t1; t2; t3; t4; t5])
                              (length (seats [t1; t2; t3; t4; t5]))
                              (Z.of_nat (length (seats [t1; t2; t3; t4; t5]))
                               - 1) start w0)
      = Ok leg1) /\
  (forall d acc w0, exists w',
      first_leg_round 6 0
        ([Some t1; Some t2; Some t3; Some t4; Some t5; bye], d, acc) w0
      = (Ok ([Some t1; bye; Some t2; Some t3; Some t4; Some t5], d,
             acc ++ [new_Match t1 t4 d false; new_Match t2 t5 d false]),
         w')) /\
  (forall d acc w0, exists w',
      first_leg_round 6 1
        ([Some t1; bye; Some t2; Some t3; Some t4; Some t5], d, acc) w0
      = (Ok ([Some t1; Some t5; bye; Some t2; Some t3; Some t4],
             add_days d 7,
             acc ++ [new_Match t1 t3 (add_days d 7) false;
                     new_Match t2 t5 (add_days d 7) false]),
         w')) /\
  (forall d acc w0, exists w',
      first_leg_round 6 2
        ([Some t1; Some t5; bye; Some t2; Some t3; Some t4], d, acc) w0
      = (Ok ([Some t1; Some t4; Some t5; bye; Some t2; Some t3],
             add_days d 7,
             acc ++ [new_Match t1 t2 (add_days d 7) false;
                     new_Match t5 t3 (add_days d 7) false]),
         w')) /\
  (forall d acc w0, exists w',
      first_leg_round 6 3
        ([Some t1; Some t4; Some t5; bye; Some t2; Some t3], d, acc) w0
      = (Ok ([Some t1; Some t3; Some t4; Some t5; bye; Some t2],
             add_days d 7,
             acc ++ [new_Match t4 t2 (add_days d 7) false;
                     new_Match t5 t3 (add_days d 7) false]),
         w')) /\
  (forall d acc w0, exists w',
      first_leg_round 6 4
        ([Some t1; Some t3; Some t4; Some t5; bye; Some t2], d, acc) w0
      = (Ok ([Some t1; Some t2; Some t3; Some t4; Some t5; bye],
             add_days d 7,
             acc ++ [new_Match t1 t5 (add_days d 7) false;
                     new_Match t4 t2 (add_days d 7) false]),
         w')) /\
  ((forall d m, db_fault d m = None) ->
   exists rows w',
     handle db_fault today w = (Ok tt, w') /\
     match_table (db w') = match_table (db w) ++ rows /\
     length rows = 20%nat /\
     map (fun r => set_match_pk r None) rows
     = leg1 ++ map (return_match 5) leg1 /\
     Forall (fun r => is_played r = false) rows).
Proof.
  intros Hteams bye start d1 d2 d3 d4 leg1. subst bye.
  split; [reflexivity|]. split; [reflexivity|].
  split; [reflexivity|]. split; [reflexivity|].
  assert (Hgen : exists w1,
             generate today w = (Ok (leg1 ++ map (return_match 5) leg1), w1) /\
             stdout w1
             = stdout w
               ++ [ (NOTICE, StartingGeneration);
                    (SUCCESS, StartDateSetTo (dt_day start));
                    (SUCCESS, MatchDaysSeparatedBy 7) ]
               ++ (if (length (match_table (db w)) =? 0)%nat then []
                   else [(WARNING, ExistingMatchesFound)])
               ++ [ (SUCCESS, GeneratingFirstLeg 5);
                    (PLAIN, RoundHeader 1 (dt_day start));
                    (PLAIN, Fixture (team_name t1) (team_name t4));
                    (PLAIN, Fixture (team_name t2) (team_name t5));
                    (PLAIN, RoundHeader 2 (dt_day d1));
                    (PLAIN, Fixture (team_name t1) (team_name t3));
                    (PLAIN, Fixture (team_name t2) (team_name t5));
                    (PLAIN, RoundHeader 3 (dt_day d2));
                    (PLAIN, Fixture (team_name t1) (team_name t2));
                    (PLAIN, Fixture (team_name t5) (team_name t3));
                    (PLAIN, RoundHeader 4 (dt_day d3));
                    (PLAIN, Fixture (team_name t4) (team_name t2));
                    (PLAIN, Fixture (team_name t5) (team_name t3));
                    (PLAIN, RoundHeader 5 (dt_day d4));
                    (PLAIN, Fixture (team_name t1) (team_name t5));
                    (PLAIN, Fixture (team_name t4) (team_name t2));
                    (SUCCESS, GeneratingSecondLeg) ]
               ++ map (fun m => (PLAIN,
                                 ReturnFixture (team_name (away_team m))
                                               (team_name (home_team m))))
                      leg1).
  { unfold generate. rewrite !bind_write, bind_query.
    cbn [db stdout connection_open]. rewrite Hteams.
    cbn [length Nat.ltb Nat.leb]. rewrite bind_query. cbn [db].
    change (seats [t1; t2; t3; t4; t5])
      with [Some t1; Some t2; Some t3; Some t4; Some t5; None].
    cbn [length]. change (Z.of_nat 6 - 1) with 5.
    destruct (length (match_table (db w)) =? 0)%nat; cbn [negb];
      [rewrite bind_ret | rewrite bind_write];
      rewrite bind_write; cbn [db stdout connection_open];
      rewrite (bind_ok _ _ _ _ _ (five_first_leg t1 t2 t3 t4 t5 _ _ _ _));
      unfold generate_second_leg; cbn [Nat.ltb Nat.leb];
      rewrite bind_write; cbn [db stdout connection_open];
      rewrite return_fixtures_run;
      (eexists; split; [reflexivity|]);
      cbn [stdout]; rewrite <- !app_assoc; reflexivity. }
  destruct Hgen as (w1 & Hgen & Hout).
  split.
  { exists w1. split; [exact Hgen|]. split; [|exact Hout].
    eapply generate_same_store; exact Hgen. }
  split.
  { intros [db0 out conn].
    change (seats [t1; t2; t3; t4; t5])
      with [Some t1; Some t2; Some t3; Some t4; Some t5; None].
    cbn [length]. change (Z.of_nat 6 - 1) with 5.
    rewrite (five_first_leg t1 t2 t3 t4 t5). reflexivity. }
  split; [intros d acc [db0 out conn]; eexists; apply five_round_1|].
  split; [intros d acc [db0 out conn]; eexists; apply five_round_2|].
  split; [intros d acc [db0 out conn]; eexists; apply five_round_3|].
  split; [intros d acc [db0 out conn]; eexists; apply five_round_4|].
  split; [intros d acc [db0 out conn]; eexists; apply five_round_5|].
  intros Hok.
  destruct (handle_accepted db_fault today w _ w1 Hgen
              (accepted_no_fault _ _ _ _ Hok)) as (w' & Hrun & Hdb & _).
  pose proof (generate_new _ _ _ _ Hgen) as Hnew.
  destruct (saved_rows_new _ (match_table (db w)) Hnew) as [Hmap Hplayed].
  eexists. exists w'. split; [exact Hrun|].
  split; [rewrite Hdb; reflexivity|].
  split; [rewrite saved_rows_length; reflexivity|].
  split; [exact Hmap | exact Hplayed].
Qed.

Lemma five_teams_bye_witness :
  exists all w1 w',
    generate 100 (league [tA; tB; tC; tD; tE]) = (Ok all, w1) /\
    length (firstn 10 all) = 10%nat /\
    handle no_fault 100 (league [tA; tB; tC; tD; tE]) = (Ok tt, w') /\
    length (match_table (db w')) = 20%nat.
Proof.
  destruct (five_teams_bye no_fault 100 (league [tA; tB; tC; tD; tE])
              tA tB tC tD tE eq_refl)
    as (_ & _ & _ & _ & (w1 & Hgen & _) & _ & _ & _ & _ & _ & _ & Hrun).
  destruct Hrun as (rows & w' & Hrun & Htab & Hlen & _);
    [intros d m; reflexivity|].
  eexists. exists w1, w'. split; [exact Hgen|].
  split; [reflexivity|]. split; [exact Hrun|].
  rewrite Htab. cbn [league db match_table app]. exact Hlen.
Defined.

(** ** Six teams: the pairing *)

(** C5.  The command pairs seat [i] with seat [i + N'/2]: from the six
    teams A to F the first round is A-D, B-E, C-F, where pairing seat [i]
    with seat [N'-1-i] gives A-F, B-E, C-D.  With the rotation (last seat
    moved behind the fixed first one) this is no round-robin: in the
    fifteen first-leg matches B meets E twice at home, and B never meets
    C. *)
Theorem six_teams_pair_seats_half_apart :
  let r := handle no_fault 100 (league [tA; tB; tC; tD; tE; tF]) in
  let leg1 := firstn 15 (match_table (db (snd r))) in
  fst r = Ok tt /\
  length (match_table (db (snd r))) = 30%nat /\
  map (fun m => (team_name (home_team m), team_name (away_team m)))
      (firstn 3 leg1)
  = [("A", "D"); ("B", "E"); ("C", "F")]%string /\
  fixture_count tB tE leg1 = 2%nat /\
  (fixture_count tB tC leg1 + fixture_count tC tB leg1 = 0)%nat /\
  (forall t1 t2 t3 t4 t5 t6 d acc w, exists w',
      first_leg_round 6 0
        ([Some t1; Some t2; Some t3; Some t4; Some t5; Some t6], d, acc) w
      = (Ok ([Some t1; Some t6; Some t2; Some t3; Some t4; Some t5], d,
             acc ++ [new_Match t1 t4 d false; new_Match t2 t5 d false;
                     new_Match t3 t6 d false]),
         w')).
Proof.
  split; [vm_compute; reflexivity|].
  split; [vm_compute; reflexivity|].
  split; [vm_compute; reflexivity|].
  split; [vm_compute; reflexivity|].
  split; [vm_compute; reflexivity|].
  intros. eexists. do 2 rewrite app_cons_snoc. cbv -[Z.add app].
  reflexivity.
Qed.

(** ** A save that fails *)

(** C10 (amended).  When the store accepts the first matches and refuses
    the next, the command ends normally with exactly the accepted matches
    added to the store, none of the later ones, and the connection closed.
    Its output after the generation is the line announcing the total, a
    progress line for every tenth match saved, and the error line carrying
    the text of the storage error; no line gives the number of matches
    saved. *)
Theorem partial_save_failure
        (db_fault : DB -> Match -> option string) (today : Z) (w w1 : World)
        (pre : list Match) (m : Match) (post : list Match) (msg : string) :
  generate today w = (Ok (pre ++ m :: post), w1) ->
  accepted db_fault (team_table (db w)) (match_table (db w)) pre ->
  db_fault (mkDB (team_table (db w))
                 (match_table (db w) ++ saved_rows (match_table (db w)) pre))
           (Match_set_played_from_scores m) = Some msg ->
  exists w',
    handle db_fault today w = (Ok tt, w') /\
    match_table (db w')
    = match_table (db w) ++ saved_rows (match_table (db w)) pre /\
    length (saved_rows (match_table (db w)) pre) = length pre /\
    team_table (db w') = team_table (db w) /\
    connection_open w' = false /\
    stdout w'
    = ((stdout w1 ++ [(NOTICE, Committing (length (pre ++ m :: post)))])
       ++ progress_lines 0 (length pre) (length (pre ++ m :: post)))
      ++ [(ERROR, CriticalSaveError msg)].
Proof.
  intros Hgen Hacc Hfault. unfold handle. rewrite (bind_ok _ _ _ _ _ Hgen).
  destruct (generate_same_store _ _ _ _ Hgen) as [Hdb _].
  pose proof (generate_new _ _ _ _ Hgen) as Hnew.
  apply Forall_app in Hnew. destruct Hnew as [Hpre _].
  destruct w1 as [[teams1 table1] out1 conn1]. cbn [db] in Hdb.
  rewrite <- Hdb in *. cbn [team_table match_table] in *.
  rewrite (commit_fault db_fault pre m post msg); [| |exact Hacc|exact Hfault].
  - eexists. split; [reflexivity|]. cbn [db stdout connection_open
                                         match_table team_table].
    repeat split. apply saved_rows_length.
  - eapply Forall_impl; [|exact Hpre]. intros x Hx. apply Hx.
Qed.

Lemma partial_save_failure_witness :
  exists w',
    handle (full_at 2) 100 (league [tA; tB; tC; tD]) = (Ok tt, w') /\
    length (match_table (db w')) = 2%nat /\
    connection_open w' = false /\
    last (stdout w') (PLAIN, StartingGeneration)
    = (ERROR, CriticalSaveError "disk full").
Proof.
  pose (lg := league [tA; tB; tC; tD]).
  pose (all := match fst (generate 100 lg) with Ok l => l | Raise _ => [] end).
  destruct (partial_save_failure (full_at 2) 100 lg (snd (generate 100 lg))
              (firstn 2 all) (nth 2 all (new_Match tA tA (start_date 0) false))
              (skipn 3 all) "disk full")
    as (w' & Hrun & Htab & Hlen & _ & Hconn & Hout).
  - vm_compute. reflexivity.
  - vm_compute. repeat split.
  - vm_compute. reflexivity.
  - exists w'. split; [exact Hrun|]. split; [|split; [exact Hconn|]].
    + rewrite Htab, length_app, Hlen. reflexivity.
    + rewrite Hout. apply last_last.
Defined.

(** C10, as stated, fails: from teams A to D, a store that refuses the
    third match and a store that refuses the fifth leave two and four
    matches saved, and the command writes the same output in both runs; it
    ends with the error line, which carries the storage error alone. *)
Lemma failure_report_omits_count :
  let r2 := handle (full_at 2) 100 (league [tA; tB; tC; tD]) in
  let r4 := handle (full_at 4) 100 (league [tA; tB; tC; tD]) in
  length (match_table (db (snd r2))) = 2%nat /\
  length (match_table (db (snd r4))) = 4%nat /\
  stdout (snd r2) = stdout (snd r4) /\
  last (stdout (snd r2)) (PLAIN, StartingGeneration)
  = (ERROR, CriticalSaveError "disk full").
Proof. vm_compute. repeat split. Qed.

(** * Further properties *)

(** ** Sorting and filtering *)

Section SortFilter.
Context {A : Type} (le : A -> A -> bool).
Hypothesis le_trans :
  forall x y z, le x y = true -> le y z = true -> le x z = true.

Lemma insert_sorted_first x l :
  Forall (fun y => le x y = true) l -> insert_sorted le x l = x :: l.
Proof.
  intros H. destruct l as [|y l]; [reflexivity|].
  inversion H as [|? ? Hy _]; subst. cbn. rewrite Hy. reflexivity.
Qed.

Lemma filter_sorted (R : A -> A -> Prop) (p : A -> bool) l :
  StronglySorted R l -> StronglySorted R (filter p l).
Proof.
  induction 1 as [|y l Hs IH Hy]; cbn; [constructor|].
  destruct (p y); [|exact IH].
  constructor; [exact IH|].
  rewrite Forall_forall in Hy |- *. intros z Hz.
  apply filter_In in Hz. apply Hy, Hz.
Qed.

(** Filtering a sorted list and inserting commute. *)
Lemma insert_sorted_filter_comm (p : A -> bool) x l :
  StronglySorted (fun a b => le a b = true) l ->
  filter p (insert_sorted le x l)
  = if p x then insert_sorted le x (filter p l) else filter p l.
Proof.
  induction 1 as [|y l Hs IH Hy]; cbn [insert_sorted filter].
  - destruct (p x); reflexivity.
  - destruct (le x y) eqn:Hxy; cbn [filter].
    + destruct (p x) eqn:Hpx; [|reflexivity].
      destruct (p y) eqn:Hpy.
      * cbn [insert_sorted]. rewrite Hxy. reflexivity.
      * symmetry. apply insert_sorted_first.
        rewrite Forall_forall in Hy |- *. intros z Hz.
        apply filter_In in Hz. destruct Hz as [Hz _].
        exact (le_trans _ _ _ Hxy (Hy z Hz)).
    + rewrite IH. destruct (p x), (p y); cbn [insert_sorted];
        rewrite ?Hxy; reflexivity.
Qed.
End SortFilter.

Lemma stable_sort_filter_comm {A} (le : A -> A -> bool) (p : A -> bool) l :
  (forall x y, le x y = true \/ le y x = true) ->
  (forall x y z, le x y = true -> le y z = true -> le x z = true) ->
  filter p (stable_sort le l) = stable_sort le (filter p l).
Proof.
  intros Htot Htrans. induction l as [|x l IH]; [reflexivity|].
  cbn [stable_sort fold_right filter]. fold (stable_sort le l).
  rewrite insert_sorted_filter_comm
    by (try exact Htrans; apply stable_sort_sorted; assumption).
  rewrite IH. destruct (p x); reflexivity.
Qed.

Lemma datetime_le_spec a b :
  datetime_le a b = true
  <-> lex_le (dt_day a, dt_hour a, dt_minute a)
             (dt_day b, dt_hour b, dt_minute b).
Proof.
  unfold datetime_le, lex_le.
  rewrite !orb_true_iff, !andb_true_iff, !orb_true_iff, !andb_true_iff.
  rewrite !Z.ltb_lt, !Z.eqb_eq, Z.leb_le. reflexivity.
Qed.

Lemma by_date_total (x y : Match) :
  datetime_le (match_date x) (match_date y) = true
  \/ datetime_le (match_date y) (match_date x) = true.
Proof. rewrite !datetime_le_spec. apply lex_le_total. Qed.

Lemma by_date_trans (x y z : Match) :
  datetime_le (match_date x) (match_date y) = true ->
  datetime_le (match_date y) (match_date z) = true ->
  datetime_le (match_date x) (match_date z) = true.
Proof. rewrite !datetime_le_spec. apply lex_le_trans. Qed.

(** ** Standings: what the rows satisfy *)

Lemma tally_step team stats m :
  let r := tally team stats m in
  s_P r = s_P stats /\
  s_W r + s_D r + s_L r = s_W stats + s_D stats + s_L stats + 1 /\
  s_Pts r - 3 * s_W r - s_D r = s_Pts stats - 3 * s_W stats - s_D stats /\
  s_W stats <= s_W r /\ s_D stats <= s_D r /\ s_L stats <= s_L r /\
  s_GD r = s_GD stats.
Proof.
  unfold tally.
  destruct (Team_eq (home_team m) team);
    repeat match goal with
           | |- context [if ?c then _ else _] => destruct c
           end;
    cbn [s_P s_W s_D s_L s_Pts s_GD s_GF s_GA]; lia.
Qed.

Lemma fold_tally_laws team ms : forall stats,
  let r := fold_left (tally team) ms stats in
  s_P r = s_P stats /\
  s_W r + s_D r + s_L r
  = s_W stats + s_D stats + s_L stats + Z.of_nat (length ms) /\
  s_Pts r - 3 * s_W r - s_D r = s_Pts stats - 3 * s_W stats - s_D stats /\
  s_W stats <= s_W r /\ s_D stats <= s_D r /\ s_L stats <= s_L r.
Proof.
  induction ms as [|m ms IH]; intros stats; cbn [fold_left length].
  - cbv zeta. change (Z.of_nat 0) with 0. lia.
  - specialize (IH (tally team stats m)). cbv zeta in IH.
    pose proof (tally_step team stats m) as Hs. cbv zeta in Hs.
    rewrite Nat2Z.inj_succ. lia.
Qed.

Lemma row_of_laws d team : row_laws (row_of d team).
Proof.
  unfold row_of, team_row, row_laws.
  pose proof (fold_tally_laws team (Match_all_played team d)
                (mkStats team (Z.of_nat (length (Match_all_played team d)))
                         0 0 0 0 0 0 0)) as H.
  cbv zeta in H. cbn [s_P s_W s_D s_L s_Pts] in H.
  unfold set_GD. cbn [s_P s_W s_D s_L s_Pts s_GD s_GF s_GA]. lia.
Qed.

(** X1.  Every row of the table has Pts = 3 W + D, P = W + D + L and
    GD = GF - GA, with W, D and L not negative. *)
Theorem standings_rows_laws (w : World) :
  exists rows, get_standings w = (Ok rows, w) /\ Forall row_laws rows.
Proof.
  eexists. split; [apply get_standings_eq|].
  apply Forall_forall. intros r Hr.
  apply stable_sort_In in Hr. apply in_map_iff in Hr.
  destruct Hr as (t & <- & _). apply row_of_laws.
Qed.

Lemma played_by_is_played team m :
  played_by team m = played_by team m && is_played m.
Proof.
  unfold played_by. destruct (is_played m);
    rewrite ?andb_false_r, ?andb_true_r; reflexivity.
Qed.

Lemma filter_played_by team l :
  filter (played_by team) l = filter (played_by team) (filter is_played l).
Proof.
  induction l as [|m l IH]; [reflexivity|]. cbn [filter].
  rewrite (played_by_is_played team m).
  destruct (is_played m); cbn [filter].
  - rewrite andb_true_r. destruct (played_by team m); rewrite IH; reflexivity.
  - rewrite andb_false_r. exact IH.
Qed.

Lemma all_played_of_played team d :
  Match_all_played team d
  = stable_sort (fun a b => datetime_le (match_date a) (match_date b))
                (filter (played_by team) (filter is_played (match_table d))).
Proof.
  unfold Match_all_played, Match_default_order.
  rewrite stable_sort_filter_comm by (apply by_date_total || apply by_date_trans).
  rewrite filter_played_by. reflexivity.
Qed.

Lemma same_unsorted_rows (d1 d2 : DB) :
  team_table d1 = team_table d2 ->
  filter is_played (match_table d1) = filter is_played (match_table d2) ->
  unsorted_rows d1 = unsorted_rows d2.
Proof.
  intros Hteams Hplayed. unfold unsorted_rows, Team_default_order.
  rewrite Hteams. apply map_ext. intros t. unfold row_of.
  rewrite !all_played_of_played, Hplayed. reflexivity.
Qed.

(** X2.  The table depends on the teams and on the played matches only:
    two stores with the same teams and the same played matches, in the same
    order, give the same table, whatever unplayed matches they hold. *)
Theorem standings_ignore_unplayed (w1 w2 : World) :
  team_table (db w1) = team_table (db w2) ->
  filter is_played (match_table (db w1))
  = filter is_played (match_table (db w2)) ->
  fst (get_standings w1) = fst (get_standings w2).
Proof.
  intros Hteams Hplayed. rewrite !get_standings_eq. cbn [fst].
  rewrite (same_unsorted_rows (db w1) (db w2) Hteams Hplayed).
  reflexivity.
Qed.

Lemma standings_ignore_unplayed_witness :
  fst (get_standings unplayed_league) = fst (get_standings (league [tB; tA])).
Proof.
  apply (standings_ignore_unplayed unplayed_league (league [tB; tA]));
    reflexivity.
Defined.

(** ** The schedule view *)

Lemma filter_split_perm {A} (p : A -> bool) l :
  Permutation (filter p l ++ filter (fun x => negb (p x)) l) l.
Proof.
  induction l as [|x l IH]; [constructor|]. cbn [filter].
  destruct (p x); cbn [negb app].
  - apply perm_skip, IH.
  - apply Permutation_sym, Permutation_cons_app, Permutation_sym, IH.
Qed.

(** X3.  The schedule view never fails and writes nothing; its two lists
    are each in date order, the first holds the played matches and the
    second the others, and together they are the matches of the store. *)
Theorem schedule_partition (w : World) :
  exists ctx,
    schedule w = (Ok ctx, w) /\
    StronglySorted by_date (played_matches ctx) /\
    StronglySorted by_date (upcoming_matches ctx) /\
    Forall (fun m => is_played m = true) (played_matches ctx) /\
    Forall (fun m => is_played m = false) (upcoming_matches ctx) /\
    Permutation (played_matches ctx ++ upcoming_matches ctx)
                (match_table (db w)).
Proof.
  eexists. split; [reflexivity|]. cbn [played_matches upcoming_matches].
  assert (Hs : StronglySorted by_date (Match_order_by_date (db w))).
  { apply (stable_sort_sorted
             (fun a b => datetime_le (match_date a) (match_date b))
             by_date_total by_date_trans). }
  split; [apply filter_sorted, Hs|]. split; [apply filter_sorted, Hs|].
  split; [|split].
  - apply Forall_forall. intros m Hm. apply filter_In in Hm. apply Hm.
  - apply Forall_forall. intros m Hm. apply filter_In in Hm.
    destruct Hm as [_ Hm]. apply negb_true_iff, Hm.
  - eapply perm_trans; [apply filter_split_perm|]. apply stable_sort_perm.
Qed.

(** ** The winner of a saved match *)

Lemma Match_save_row db_fault self w row w' :
  Match_save db_fault self w = (Ok row, w') ->
  set_match_pk row None
  = set_match_pk (Match_set_played_from_scores self) None.
Proof.
  unfold Match_save, Model_save.
  destruct (db_fault _ _); [discriminate|].
  destruct (match_pk _) as [k|].
  - destruct (existsb _ _); intros [= <- _]; reflexivity.
  - intros [= <- _]. reflexivity.
Qed.

(** X4.  [get_winner] on a match as [Match.save] leaves it: not available
    when neither side has scored, the side with more goals otherwise, and
    a draw only for a level score with goals; a goalless match is never
    reported as a draw. *)
Theorem get_winner_after_save
        (db_fault : DB -> Match -> option string) (self row : Match)
        (w w' : World) :
  Match_save db_fault self w = (Ok row, w') ->
  (home_score self <= 0 -> away_score self <= 0 ->
   get_winner row = "N/A"%string) /\
  (0 < home_score self -> away_score self < home_score self ->
   get_winner row = team_name (home_team self)) /\
  (0 < away_score self -> home_score self < away_score self ->
   get_winner row = team_name (away_team self)) /\
  (0 < home_score self -> home_score self = away_score self ->
   get_winner row = "Draw"%string).
Proof.
  intros Hsave. apply Match_save_row in Hsave.
  assert (Hrow : get_winner row
                 = get_winner (Match_set_played_from_scores self)).
  { destruct row, (Match_set_played_from_scores self).
    cbn in Hsave. injection Hsave as -> -> -> -> -> ->. reflexivity. }
  rewrite Hrow. unfold get_winner, Match_set_played_from_scores.
  destruct (home_score self >? 0) eqn:Hh;
    destruct (away_score self >? 0) eqn:Ha; cbn;
    destruct (home_score self >? away_score self) eqn:Hha;
    destruct (away_score self >? home_score self) eqn:Hah;
    rewrite ?Z.gtb_gt, ?Z.gtb_ltb, ?Z.ltb_ge, ?Z.ltb_lt in *;
    repeat split; intros; try reflexivity; lia.
Qed.

Lemma get_winner_after_save_witness :
  exists row w',
    Match_save no_fault (new_Match tA tB (start_date 100) true)
               (league [tA; tB]) = (Ok row, w') /\
    get_winner row = "N/A"%string.
Proof.
  eexists. eexists. split; [reflexivity|].
  eapply (get_winner_after_save no_fault
            (new_Match tA tB (start_date 100) true)).
  - reflexivity.
  - cbn. lia.
  - cbn. lia.
Defined.

(** ** Keys and repeated saves *)

Lemma NoDup_snoc {A} (l : list A) x : NoDup l -> ~ In x l -> NoDup (l ++ [x]).
Proof.
  intros Hl Hx.
  apply (Permutation_NoDup (Permutation_cons_append l x)).
  constructor; assumption.
Qed.

Lemma set_played_from_scores_idem m :
  Match_set_played_from_scores (Match_set_played_from_scores m)
  = Match_set_played_from_scores m.
Proof.
  unfold Match_set_played_from_scores.
  destruct ((home_score m >? 0) || (away_score m >? 0)) eqn:E; cbn;
    rewrite E; reflexivity.
Qed.

Lemma update_row_same row k table :
  (forall m, In m table -> has_pk k m = true -> m = row) ->
  update_row row k table = table.
Proof.
  intros H. unfold update_row. rewrite <- (map_id table) at 2.
  apply map_ext_in. intros m Hm.
  destruct (has_pk k m) eqn:E; [symmetry; apply H; assumption | reflexivity].
Qed.

Lemma existsb_has_pk_snoc k table row :
  match_pk row = Some k -> existsb (has_pk k) (table ++ [row]) = true.
Proof.
  intros Hrow. rewrite existsb_app. cbn. unfold has_pk at 2.
  rewrite Hrow, Z.eqb_refl. apply orb_true_iff. right. reflexivity.
Qed.

Lemma update_row_snoc row k table :
  match_pk row = Some k -> existsb (has_pk k) table = false ->
  update_row row k (table ++ [row]) = table ++ [row].
Proof.
  intros Hrow Hex. apply update_row_same. intros m Hm Hk.
  apply in_app_or in Hm. destruct Hm as [Hm|[<-|[]]]; [|reflexivity].
  assert (existsb (has_pk k) table = true)
    by (apply existsb_exists; exists m; split; assumption).
  congruence.
Qed.

Lemma fresh_pk_absent table :
  existsb (has_pk (fresh_pk table)) table = false.
Proof.
  destruct (existsb _ _) eqn:E; [|reflexivity].
  apply existsb_exists in E. destruct E as (m & Hm & Hk).
  apply fresh_pk_gt in Hm. unfold has_pk, pk_or_zero in *.
  destruct (match_pk m); [|discriminate].
  apply Z.eqb_eq in Hk. lia.
Qed.

Lemma update_row_twice row k table :
  match_pk row = Some k ->
  update_row row k (update_row row k table) = update_row row k table.
Proof.
  intros Hrow. apply update_row_same. intros m Hm Hk.
  unfold update_row in Hm. apply in_map_iff in Hm.
  destruct Hm as (m0 & <- & _).
  destruct (has_pk k m0) eqn:E; [reflexivity | congruence].
Qed.

Lemma existsb_update_row row k table :
  match_pk row = Some k -> existsb (has_pk k) table = true ->
  existsb (has_pk k) (update_row row k table) = true.
Proof.
  intros Hrow Hex. apply existsb_exists in Hex.
  destruct Hex as (m & Hm & Hk). apply existsb_exists.
  exists row. split.
  - unfold update_row. apply in_map_iff. exists m. rewrite Hk. auto.
  - unfold has_pk. rewrite Hrow. apply Z.eqb_refl.
Qed.

(** X5.  Saving again what [Match.save] has just stored changes nothing:
    when the store accepts the second write, the instance returned and the
    whole world are those of the first save. *)
Theorem save_twice
        (db_fault : DB -> Match -> option string) (self row : Match)
        (w w' : World) :
  Match_save db_fault self w = (Ok row, w') ->
  db_fault (db w') row = None ->
  Match_save db_fault row w' = (Ok row, w').
Proof.
  unfold Match_save at 1. unfold Model_save.
  destruct (db_fault (db w) _); [discriminate|].
  set (self' := Match_set_played_from_scores self).
  assert (Hidem : forall k, Match_set_played_from_scores (set_match_pk self' k)
                            = set_match_pk self' k).
  { intros k. unfold self'.
    rewrite <- (set_played_from_scores_idem self) at 2.
    generalize (Match_set_played_from_scores self). intros m.
    unfold Match_set_played_from_scores. cbn.
    destruct ((home_score m >? 0) || (away_score m >? 0)); reflexivity. }
  assert (Hself : set_match_pk self' (match_pk self') = self')
    by (destruct self'; reflexivity).
  destruct (match_pk self') as [k|] eqn:Hpk.
  - destruct (existsb (has_pk k) (match_table (db w))) eqn:Hex;
      intros [= <- <-] Hacc; cbn [db match_table team_table] in *;
      unfold Match_save, Model_save; rewrite <- Hself, Hidem, Hself;
      cbn [db match_table team_table stdout connection_open];
      rewrite Hacc, Hpk.
    + rewrite existsb_update_row, update_row_twice by assumption.
      reflexivity.
    + rewrite existsb_has_pk_snoc, update_row_snoc by assumption.
      reflexivity.
  - intros [= <- <-] Hacc. cbn [db match_table team_table] in *.
    unfold Match_save, Model_save. rewrite Hidem.
    cbn [db match_table team_table stdout connection_open match_pk
         set_match_pk].
    rewrite Hacc.
    rewrite existsb_has_pk_snoc by reflexivity.
    rewrite update_row_snoc; [reflexivity | reflexivity |].
    apply fresh_pk_absent.
Qed.

Lemma save_twice_witness :
  exists row w',
    Match_save no_fault (new_Match tA tB (start_date 100) true)
               (league [tA; tB]) = (Ok row, w') /\
    Match_save no_fault row w' = (Ok row, w').
Proof.
  eexists. eexists. split; [reflexivity|].
  apply (save_twice no_fault (new_Match tA tB (start_date 100) true) _
                    (league [tA; tB])); reflexivity.
Defined.

(** ** The command under any store *)

(** Whatever the store answers, the save loop leaves the rows of a prefix
    of the list behind the table: the whole list when it returns, a proper
    prefix when it raises. *)
Lemma save_loop_any db_fault total ms : forall c teams table out conn,
  Forall (fun m => match_pk m = None) ms ->
  exists k r out',
    for_each ms (save_one db_fault total) c
             (mkWorld (mkDB teams table) out conn)
    = (r, mkWorld (mkDB teams (table ++ saved_rows table (firstn k ms)))
                  out' conn) /\
    match r with
    | Ok _ => k = length ms
    | Raise _ => (k < length ms)%nat
    end.
Proof.
  induction ms as [|m ms IH]; intros c teams table out conn Hpk.
  - exists 0%nat, (Ok c), out. cbn. rewrite app_nil_r. split; reflexivity.
  - inversion Hpk as [|? ? Hm Hms]; subst.
    destruct (db_fault (mkDB teams table) (Match_set_played_from_scores m))
      as [msg|] eqn:Hf.
    + exists 0%nat, (Raise (DatabaseError msg)), out.
      cbn [for_each firstn saved_rows length]. unfold bind.
      rewrite (save_one_fault db_fault total m c _ msg) by exact Hf.
      rewrite app_nil_r. split; [reflexivity | lia].
    + cbn [for_each]. unfold bind at 1.
      rewrite (save_one_accepted db_fault total m c teams table out conn Hm Hf).
      match goal with
      | |- context [for_each ms _ ?c1 (mkWorld (mkDB _ ?t1) ?o1 _)] =>
          destruct (IH c1 teams t1 o1 conn Hms) as (k & r & out' & E & Hr)
      end.
      exists (S k), r, out'. rewrite E. cbn [firstn saved_rows length].
      rewrite <- app_assoc. split; [reflexivity|].
      destruct r; lia.
Qed.

Lemma commit_any db_fault ms teams table out conn :
  Forall (fun m => match_pk m = None) ms ->
  exists k out',
    (k <= length ms)%nat /\
    commit db_fault ms (mkWorld (mkDB teams table) out conn)
    = (Ok tt,
       mkWorld (mkDB teams (table ++ saved_rows table (firstn k ms)))
               out' false).
Proof.
  intros Hpk. unfold commit. rewrite bind_write.
  cbn [db stdout connection_open]. unfold bind, try_except.
  destruct (save_loop_any db_fault (length ms) ms 0 teams table
              (out ++ [(NOTICE, Committing (length ms))]) conn Hpk)
    as (k & r & out' & E & Hr).
  rewrite E. exists k. destruct r as [c|e]; cbn.
  - eexists. split; [lia | reflexivity].
  - eexists. split; [lia | reflexivity].
Qed.

Lemma firstn_Forall {A} (P : A -> Prop) k l :
  Forall P l -> Forall P (firstn k l).
Proof.
  intros H. rewrite Forall_forall in H |- *.
  intros x Hx. apply H. rewrite <- (firstn_skipn k l).
  apply in_or_app. left. exact Hx.
Qed.

Lemma handle_any
      (db_fault : DB -> Match -> option string) (today : Z) (w : World) :
  (2 <= length (team_table (db w)))%nat ->
  exists all w1 k w',
    generate today w = (Ok all, w1) /\
    handle db_fault today w = (Ok tt, w') /\
    connection_open w' = false /\
    team_table (db w') = team_table (db w) /\
    (k <= length all)%nat /\
    match_table (db w')
    = match_table (db w) ++ saved_rows (match_table (db w)) (firstn k all).
Proof.
  intros Hlen.
  destruct (generate_ok today w Hlen) as (all & w1 & Hgen & Hdb & _).
  pose proof (generate_new _ _ _ _ Hgen) as Hnew.
  assert (Hpk : Forall (fun m => match_pk m = None) all)
    by (eapply Forall_impl; [|exact Hnew]; intros m Hm; apply Hm).
  destruct w1 as [[teams1 table1] out1 conn1]. cbn [db] in Hdb.
  destruct (commit_any db_fault all teams1 table1 out1 conn1 Hpk)
    as (k & out' & Hk & Hcommit).
  exists all. eexists. exists k. eexists.
  split; [exact Hgen|].
  split; [unfold handle; rewrite (bind_ok _ _ _ _ _ Hgen); exact Hcommit|].
  rewrite <- Hdb. cbn [db team_table match_table connection_open].
  repeat split; assumption.
Qed.

(** X6.  From two teams or more the command ends normally whatever the
    store answers to the writes, with the connection closed; the teams and
    the matches that were stored are untouched, and what it has added
    behind them are the rows of a first part of the generated list, in
    order, none played. *)
Theorem handle_always_returns
        (db_fault : DB -> Match -> option string) (today : Z) (w : World) :
  (2 <= length (team_table (db w)))%nat ->
  exists all w1 k w',
    generate today w = (Ok all, w1) /\
    handle db_fault today w = (Ok tt, w') /\
    connection_open w' = false /\
    team_table (db w') = team_table (db w) /\
    (k <= length all)%nat /\
    match_table (db w')
    = match_table (db w) ++ saved_rows (match_table (db w)) (firstn k all) /\
    map (fun r => set_match_pk r None)
        (saved_rows (match_table (db w)) (firstn k all))
    = firstn k all /\
    Forall (fun r => is_played r = false)
           (saved_rows (match_table (db w)) (firstn k all)).
Proof.
  intros Hlen.
  destruct (handle_any db_fault today w Hlen)
    as (all & w1 & k & w' & Hgen & Hrun & Hconn & Hteams & Hk & Htab).
  exists all, w1, k, w'.
  pose proof (firstn_Forall _ k _ (generate_new _ _ _ _ Hgen)) as Hnew.
  destruct (saved_rows_new _ (match_table (db w)) Hnew) as [Hmap Hplayed].
  repeat split; assumption.
Qed.

Lemma handle_always_returns_witness :
  exists w',
    handle (full_at 5) 100 (league [tA; tB; tC]) = (Ok tt, w') /\
    connection_open w' = false.
Proof.
  destruct (handle_always_returns (full_at 5) 100 (league [tA; tB; tC]))
    as (all & w1 & k & w' & _ & Hrun & Hconn & _).
  - cbn. lia.
  - exists w'. split; [exact Hrun | exact Hconn].
Defined.

Lemma too_few_teams db_fault today w :
  (length (team_table (db w)) < 2)%nat ->
  exists w',
    handle db_fault today w
    = (Raise (CommandError "Need at least 2 teams to generate a schedule."),
       w') /\
    same_store w w'.
Proof.
  intros Hlen. rewrite <- Team_order_by_pk_length in Hlen.
  apply Nat.ltb_lt in Hlen. eexists. split.
  - unfold handle, generate, bind, write, query.
    cbn [db stdout connection_open]. rewrite Hlen. reflexivity.
  - split; reflexivity.
Qed.

Lemma filter_saved_rows_new table ms :
  Forall new_fixture ms -> filter is_played (saved_rows table ms) = [].
Proof.
  intros Hnew. apply filter_none.
  destruct (saved_rows_new ms table Hnew) as [_ H].
  rewrite Forall_forall in H. exact H.
Qed.

(** X7.  Generating fixtures never moves the league table: after the
    command, however it ended, the standings are those of before. *)
Theorem handle_keeps_standings
        (db_fault : DB -> Match -> option string) (today : Z) (w : World) :
  fst (get_standings (snd (handle db_fault today w)))
  = fst (get_standings w).
Proof.
  destruct (Nat.lt_ge_cases (length (team_table (db w))) 2) as [Hlt|Hge].
  - destruct (too_few_teams db_fault today w Hlt) as (w' & E & [Hdb _]).
    rewrite E. cbn [snd]. rewrite !get_standings_eq. cbn [fst].
    rewrite Hdb. reflexivity.
  - destruct (handle_any db_fault today w Hge)
      as (all & w1 & k & w' & Hgen & E & _ & Hteams & _ & Htab).
    rewrite E. cbn [snd]. rewrite !get_standings_eq. cbn [fst].
    rewrite (same_unsorted_rows (db w') (db w) Hteams); [reflexivity|].
    rewrite Htab, filter_app, filter_saved_rows_new, app_nil_r;
      [reflexivity|].
    apply firstn_Forall. eapply generate_new; exact Hgen.
Qed.

(** ** What the generation loops produce *)

Lemma pair_seats_inv teams half date i acc w acc' w' :
  pair_seats teams half date i acc w = (Ok acc', w') ->
  acc' = acc \/
  exists t1 t2,
    nth_error teams i = Some (Some t1) /\
    nth_error teams (i + half) = Some (Some t2) /\
    acc' = acc ++ [new_Match t1 t2 date false].
Proof.
  unfold pair_seats, index, bind.
  destruct (nth_error teams i) as [[t1|]|];
    destruct (nth_error teams (i + half)) as [[t2|]|]; cbn;
    intros [= <- _]; auto.
  right. exists t1, t2. auto.
Qed.

Lemma rotate_perm teams w teams' w' :
  rotate teams w = (Ok teams', w') -> Permutation teams teams'.
Proof.
  unfold rotate, pop. destruct (rev teams) as [|x r] eqn:E;
    [discriminate|].
  rewrite bind_ret. intros [= <- _]. cbn [fst snd]. unfold insert_at_1.
  apply (f_equal (@rev _)) in E. rewrite rev_involutive in E. cbn in E.
  rewrite E.
  eapply perm_trans; [apply Permutation_sym, Permutation_cons_append|].
  rewrite <- (firstn_skipn 1 (rev r)) at 1.
  apply Permutation_middle.
Qed.

(** One round: the seats are permuted, the date moves by a week after the
    first round, and the matches added pair a seat with the seat half the
    list further, on the date of the round. *)
Lemma first_leg_round_inv n r teams date acc w teams' date' acc' w' :
  first_leg_round n r (teams, date, acc) w = (Ok (teams', date', acc'), w') ->
  Permutation teams teams' /\
  date' = (if (0 <? r)%nat then add_days date days_between_weeks else date) /\
  exists new,
    acc' = acc ++ new /\
    Forall (fun m => exists i t1 t2,
                nth_error teams i = Some (Some t1) /\
                nth_error teams (i + n / 2) = Some (Some t2) /\
                m = new_Match t1 t2 date' false) new.
Proof.
  unfold first_leg_round. rewrite (bind_write _ _ _ w). cbv zeta.
  unfold bind.
  destruct (for_each _ _ acc _) as [[acc1|e] w1] eqn:E1; [|discriminate].
  destruct (rotate teams w1) as [[teams1|e] w2] eqn:E2; [|discriminate].
  intros [= <- <- <- _].
  split; [eapply rotate_perm; exact E2|]. split; [reflexivity|].
  refine (for_each_invariant
            (fun a => exists new, a = acc ++ new /\ Forall _ new)
            _ _ _ _ _ _ _ _ E1).
  - intros i a wa a' wb (new & -> & Hnew) Hstep.
    apply pair_seats_inv in Hstep.
    destruct Hstep as [->|(t1 & t2 & H1 & H2 & ->)].
    + exists new. split; [reflexivity | exact Hnew].
    + exists (new ++ [new_Match t1 t2
                        (if (0 <? r)%nat
                         then add_days date days_between_weeks else date)
                        false]).
      split; [rewrite app_assoc; reflexivity|].
      apply Forall_app. split; [exact Hnew|].
      constructor; [|constructor]. exists i, t1, t2. auto.
  - exists []. split; [rewrite app_nil_r; reflexivity | constructor].
Qed.

(** The first leg, under an invariant [Q] of the seat list and the date
    that the rounds keep: every match satisfies what [Q] gives for the
    matches of a round. *)
Lemma first_leg_Forall (Q : list (option Team) -> datetime -> Prop)
      (P : Match -> Prop) seats0 n rounds start w leg1 w' :
  Q seats0 start ->
  (forall teams teams' d r,
      Q teams d -> Permutation teams teams' ->
      Q teams' (if (0 <? r)%nat then add_days d days_between_weeks else d)) ->
  (forall teams d i t1 t2,
      Q teams d ->
      nth_error teams i = Some (Some t1) ->
      nth_error teams (i + n / 2) = Some (Some t2) ->
      P (new_Match t1 t2 d false)) ->
  generate_first_leg seats0 n rounds start w = (Ok leg1, w') ->
  Forall P leg1.
Proof.
  intros HQ0 HQstep HP. unfold generate_first_leg, bind.
  destruct (for_each _ _ _ w) as [[st|e] w1] eqn:E; [|discriminate].
  intros [= <- _].
  assert (H : Q (fst (fst st)) (snd (fst st)) /\ Forall P (snd st)).
  { refine (for_each_invariant
              (fun st => Q (fst (fst st)) (snd (fst st)) /\ Forall P (snd st))
              _ _ _ _ _ _ _ _ E); [|split; [exact HQ0 | constructor]].
    intros r [[ts d] acc] wa [[ts' d'] acc'] wb [HQ Hacc] Hstep.
    cbn [fst snd] in *.
    apply first_leg_round_inv in Hstep.
    destruct Hstep as (Hperm & -> & new & -> & Hnew).
    split.
    - exact (HQstep ts ts' d r HQ Hperm).
    - apply Forall_app. split; [exact Hacc|].
      eapply Forall_impl; [|exact Hnew].
      intros m (i & t1 & t2 & H1 & H2 & ->).
      apply (HP ts _ i t1 t2); [|assumption|assumption].
      apply (HQstep ts ts d r HQ (Permutation_refl _)). }
  apply H.
Qed.

(** What [generate] returns, in terms of its two phases. *)
Lemma generate_inv today w all w1 :
  generate today w = (Ok all, w1) ->
  let ts := Team_order_by_pk (db w) in
  let n := length (seats ts) in
  (2 <= length ts)%nat /\
  exists leg1 w0 w0',
    generate_first_leg (seats ts) n (Z.of_nat n - 1) (start_date today) w0
    = (Ok leg1, w0') /\
    all = if (2 <? length ts)%nat
          then leg1 ++ map (return_match (Z.of_nat n - 1)) leg1
          else leg1.
Proof.
  intros H ts n.
  destruct (Nat.ltb_spec (length ts) 2) as [Hlt|Hge].
  - apply Nat.ltb_lt in Hlt. unfold generate in H.
    rewrite !bind_write, bind_query in H.
    cbn [db stdout connection_open] in H. fold ts in H.
    rewrite Hlt in H. discriminate.
  - split; [exact Hge|].
    destruct (generate_phases today w ts eq_refl Hge) as (w0 & _ & E).
    rewrite E in H. unfold bind in H. fold n in H.
    destruct (generate_first_leg _ n _ _ w0) as [[leg1|e] w0'] eqn:E1;
      [|discriminate].
    exists leg1, w0, w0'. split; [exact E1|].
    destruct (Nat.ltb_spec 2 (length ts)) as [Hn|Hn].
    + destruct (second_leg_eq (length ts) (Z.of_nat n - 1) leg1 w0' Hn)
        as (w2 & E2).
      rewrite E2 in H. injection H as <- _. reflexivity.
    + rewrite second_leg_skipped in H by exact Hn.
      injection H as <- _. reflexivity.
Qed.

Lemma seats_length_pos ts : (2 <= length ts)%nat -> 1 <= Z.of_nat (length (seats ts)) - 1.
Proof. intros H. pose proof (seats_length ts). lia. Qed.

(** ** Weekly dates *)

Lemma weeks_after_start_add today d k :
  0 <= k -> weeks_after_start today d ->
  weeks_after_start today (add_days d (k * days_between_weeks)).
Proof.
  intros Hk (j & Hj & ->). exists (j + k). split; [lia|].
  unfold add_days, days_between_weeks.
  cbn [dt_day dt_hour dt_minute dt_aware]. f_equal. lia.
Qed.

(** X8.  Every fixture the command generates is dated a whole number of
    weeks after the start date (tomorrow), at midnight and
    timezone-aware: never today or earlier, and all on one weekday. *)
Theorem fixtures_weekly (today : Z) (w : World) :
  (2 <= length (team_table (db w)))%nat ->
  exists all w1,
    generate today w = (Ok all, w1) /\
    Forall (fun m => weeks_after_start today (match_date m)) all.
Proof.
  intros Hlen.
  destruct (generate_ok today w Hlen) as (all & w1 & Hgen & _).
  exists all, w1. split; [exact Hgen|].
  destruct (generate_inv _ _ _ _ Hgen) as (Hts & leg1 & w0 & w0' & E1 & ->).
  assert (Hleg1 : Forall (fun m => weeks_after_start today (match_date m))
                         leg1).
  { refine (first_leg_Forall (fun _ d => weeks_after_start today d) _
              _ _ _ _ _ _ _ _ _ _ E1).
    - exists 0. split; [lia|]. unfold start_date, make_aware,
        datetime_combine. cbn [dt_day dt_hour dt_minute dt_aware].
      f_equal. lia.
    - intros teams teams' d r Hd _. destruct (0 <? r)%nat; [|exact Hd].
      apply (weeks_after_start_add today d 1); [lia | exact Hd].
    - intros teams d i t1 t2 Hd _ _. exact Hd. }
  destruct (2 <? _)%nat; [|exact Hleg1].
  apply Forall_app. split; [exact Hleg1|].
  apply Forall_forall. intros m Hm. apply in_map_iff in Hm.
  destruct Hm as (m1 & <- & Hm1).
  rewrite Forall_forall in Hleg1. unfold return_match. cbn [match_date new_Match].
  apply weeks_after_start_add; [|apply Hleg1, Hm1].
  pose proof (seats_length_pos _ Hts). lia.
Qed.

Lemma fixtures_weekly_witness :
  exists all w1,
    generate 100 (league [tA; tB; tC]) = (Ok all, w1) /\
    Forall (fun m => weeks_after_start 100 (match_date m)) all.
Proof.
  apply (fixtures_weekly 100 (league [tA; tB; tC])). cbn. lia.
Defined.

(** ** Who meets whom *)

Lemma seats_In t ts : In (Some t) (seats ts) -> In t ts.
Proof.
  unfold seats. destruct (negb _); intros H.
  - apply in_app_or in H. destruct H as [H|[H|[]]]; [|discriminate].
    apply in_map_iff in H. destruct H as (x & [= ->] & H). exact H.
  - apply in_map_iff in H. destruct H as (x & [= ->] & H). exact H.
Qed.

Lemma map_Some_NoDup {A} (l : list A) : NoDup l -> NoDup (map Some l).
Proof.
  induction 1 as [|x l Hx Hl IH]; cbn; constructor; [|exact IH].
  intros H. apply in_map_iff in H. destruct H as (y & [= ->] & H).
  contradiction.
Qed.

Lemma seats_keys_NoDup ts :
  NoDup (map team_pk ts) ->
  NoDup (map (option_map team_pk) (seats ts)).
Proof.
  intros H. apply map_Some_NoDup in H.
  assert (E : map (option_map team_pk) (map Some ts)
              = map Some (map team_pk ts))
    by (rewrite !map_map; reflexivity).
  unfold seats. destruct (negb _).
  - rewrite map_app, E. apply NoDup_snoc; [exact H|].
    intros Hin. apply in_map_iff in Hin.
    destruct Hin as (x & Hx & _). discriminate.
  - rewrite E. exact H.
Qed.

Lemma seats_half_pos ts :
  (2 <= length ts)%nat -> (0 < length (seats ts) / 2)%nat.
Proof.
  intros H. pose proof (seats_length ts).
  apply Nat.div_str_pos. lia.
Qed.

(** X9.  When the teams have distinct keys, every fixture the command
    generates is between two different teams of the table: no team is
    drawn against itself, and the bye is never a side. *)
Theorem fixtures_proper (today : Z) (w : World) :
  (2 <= length (team_table (db w)))%nat ->
  NoDup (map team_pk (Team_order_by_pk (db w))) ->
  exists all w1,
    generate today w = (Ok all, w1) /\
    Forall (proper_fixture (Team_order_by_pk (db w))) all.
Proof.
  intros Hlen Hnd.
  destruct (generate_ok today w Hlen) as (all & w1 & Hgen & _).
  exists all, w1. split; [exact Hgen|].
  destruct (generate_inv _ _ _ _ Hgen) as (Hts & leg1 & w0 & w0' & E1 & ->).
  set (ts := Team_order_by_pk (db w)) in *.
  assert (Hleg1 : Forall (proper_fixture ts) leg1).
  { refine (first_leg_Forall (fun teams _ => Permutation (seats ts) teams) _
              _ _ _ _ _ _ _ _ _ _ E1).
    - apply Permutation_refl.
    - intros teams teams' d r HQ Hp. eapply perm_trans; eassumption.
    - intros teams d i t1 t2 HQ H1 H2.
      assert (Hin : forall t j, nth_error teams j = Some (Some t) -> In t ts).
      { intros t j Hj. apply seats_In.
        apply (Permutation_in _ (Permutation_sym HQ)).
        eapply nth_error_In; exact Hj. }
      split; [exact (Hin _ _ H1)|]. split; [exact (Hin _ _ H2)|].
      cbn [home_team away_team new_Match]. intros Hpk.
      pose proof (seats_keys_NoDup ts Hnd) as Hk.
      apply (Permutation_NoDup (Permutation_map (option_map team_pk) HQ))
        in Hk.
      rewrite NoDup_nth_error in Hk.
      assert (Hi : (i < length (map (option_map team_pk) teams))%nat).
      { rewrite length_map. apply nth_error_Some. rewrite H1. discriminate. }
      specialize (Hk i (i + length (seats ts) / 2)%nat Hi).
      rewrite !nth_error_map, H1, H2 in Hk. cbn [option_map] in Hk.
      rewrite Hpk in Hk.
      specialize (Hk eq_refl).
      pose proof (seats_half_pos ts Hts). lia. }
  destruct (2 <? _)%nat; [|exact Hleg1].
  apply Forall_app. split; [exact Hleg1|].
  apply Forall_forall. intros m Hm. apply in_map_iff in Hm.
  destruct Hm as (m1 & <- & Hm1).
  rewrite Forall_forall in Hleg1. destruct (Hleg1 m1 Hm1) as (Hh & Ha & Hne).
  unfold proper_fixture, return_match. cbn [home_team away_team new_Match].
  repeat split; try assumption. congruence.
Qed.

Lemma fixtures_proper_witness :
  exists all w1,
    generate 100 (league [tA; tB; tC; tD; tE]) = (Ok all, w1) /\
    Forall (proper_fixture [tA; tB; tC; tD; tE]) all.
Proof.
  apply (fixtures_proper 100 (league [tA; tB; tC; tD; tE])).
  - cbn. lia.
  - repeat constructor; cbn; intuition discriminate.
Defined.

(** X10.  From more than two teams the generated list is a first leg
    followed by its mirror: the second half holds, in the same order, the
    return of each match of the first half, a fixed number of weeks later,
    so every team is host to each opponent exactly as often as it is its
    guest. *)
Theorem fixtures_home_away_balanced (today : Z) (w : World) :
  (2 < length (team_table (db w)))%nat ->
  exists leg1 leg2 w1,
    generate today w = (Ok (leg1 ++ leg2), w1) /\
    Forall2 (is_return_of
               ((Z.of_nat (length (seats (Team_order_by_pk (db w)))) - 1)
                * days_between_weeks)) leg1 leg2 /\
    forall a b,
      fixture_count a b (leg1 ++ leg2) = fixture_count b a (leg1 ++ leg2).
Proof.
  intros Hlen.
  destruct (generate_ok today w ltac:(lia)) as (all & w1 & Hgen & _).
  destruct (generate_inv _ _ _ _ Hgen) as (Hts & leg1 & w0 & w0' & E1 & ->).
  rewrite <- Team_order_by_pk_length in Hlen.
  apply Nat.ltb_lt in Hlen. rewrite Hlen in Hgen.
  eexists. eexists. exists w1. split; [exact Hgen|].
  split; [apply return_match_is_return|].
  intros a b. rewrite !fixture_count_app, !fixture_count_return. lia.
Qed.

Lemma fixtures_home_away_balanced_witness :
  exists leg1 leg2 w1,
    generate 100 (league [tA; tB; tC; tD; tE]) = (Ok (leg1 ++ leg2), w1) /\
    fixture_count tB tE (leg1 ++ leg2) = fixture_count tE tB (leg1 ++ leg2).
Proof.
  destruct (fixtures_home_away_balanced 100 (league [tA; tB; tC; tD; tE]))
    as (leg1 & leg2 & w1 & Hgen & _ & Hsym).
  - cbn. lia.
  - exists leg1, leg2, w1. split; [exact Hgen | apply Hsym].
Defined.

(** ** How many fixtures *)

Lemma pair_seats_count teams half date i acc w acc' w' :
  pair_seats teams half date i acc w = (Ok acc', w') ->
  length acc'
  = (length acc
     + if both_seated (nth_error teams i) (nth_error teams (i + half))
       then 1 else 0)%nat.
Proof.
  unfold pair_seats, index, bind.
  destruct (nth_error teams i) as [[t1|]|];
    destruct (nth_error teams (i + half)) as [[t2|]|]; cbn;
    intros [= <- _]; rewrite ?length_app; cbn; lia.
Qed.

Lemma pair_loop_count teams half date xs : forall acc w acc' w',
  for_each xs (pair_seats teams half date) acc w = (Ok acc', w') ->
  length acc'
  = (length acc
     + length (filter (fun i => both_seated (nth_error teams i)
                                            (nth_error teams (i + half)))
                      xs))%nat.
Proof.
  induction xs as [|i xs IH]; intros acc w acc' w'; cbn [for_each filter].
  - intros [= <- _]. cbn. lia.
  - unfold bind.
    destruct (pair_seats teams half date i acc w) as [[acc1|e] w1] eqn:E;
      [|discriminate].
    intros H. apply IH in H. apply pair_seats_count in E.
    destruct (both_seated _ _); cbn [length] in *; lia.
Qed.

Lemma length_filter_shift (f : nat -> bool) n :
  length (filter f (seq 1 n)) = length (filter (fun i => f (S i)) (seq 0 n)).
Proof.
  rewrite <- seq_shift. generalize (seq 0 n). intros l.
  induction l as [|x l IH]; [reflexivity|]. cbn [map filter].
  destruct (f (S x)); cbn [length]; rewrite IH; reflexivity.
Qed.

(** Seat by seat: the pairings with a team on both sides and the byes
    make up the half list, when no pairing holds two byes. *)
Lemma both_seated_count l1 : forall l2,
  length l1 = length l2 ->
  (byes l1 + byes l2 <= 1)%nat ->
  (length (filter (fun i => both_seated (nth_error l1 i) (nth_error l2 i))
                  (seq 0 (length l1)))
   + byes l1 + byes l2 = length l1)%nat.
Proof.
  induction l1 as [|x l1 IH]; intros [|y l2] Hlen Hb; try discriminate.
  - reflexivity.
  - cbn [length] in Hlen. injection Hlen as Hlen.
    cbn [length].
    set (f := fun i => both_seated (nth_error (x :: l1) i)
                                   (nth_error (y :: l2) i)).
    assert (Hf : length (filter f (seq 0 (S (length l1))))
                 = ((if both_seated (Some x) (Some y) then 1 else 0)
                    + length (filter
                                (fun i => both_seated (nth_error l1 i)
                                                      (nth_error l2 i))
                                (seq 0 (length l1))))%nat).
    { cbn [seq filter]. change (f 0%nat) with (both_seated (Some x) (Some y)).
      destruct (both_seated (Some x) (Some y)); cbn [length];
        rewrite (length_filter_shift f); reflexivity. }
    rewrite Hf. clear Hf f. unfold byes in *. cbn [filter] in *.
    destruct x as [x|], y as [y|]; cbn [is_bye both_seated length] in *;
      try (specialize (IH l2 Hlen ltac:(lia)); lia).
Qed.

Lemma seats_split_count teams half :
  length teams = (2 * half)%nat -> (byes teams <= 1)%nat ->
  length (filter (fun i => both_seated (nth_error teams i)
                                       (nth_error teams (i + half)))
                 (seq 0 half))
  = (half - byes teams)%nat.
Proof.
  intros Hlen Hb.
  set (l1 := firstn half teams). set (l2 := skipn half teams).
  assert (Hl1 : length l1 = half)
    by (unfold l1; rewrite length_firstn; lia).
  assert (Hl2 : length l2 = half)
    by (unfold l2; rewrite length_skipn; lia).
  assert (Hteams : teams = l1 ++ l2)
    by (symmetry; apply firstn_skipn).
  assert (Hbyes : byes teams = (byes l1 + byes l2)%nat).
  { unfold byes. rewrite Hteams, filter_app, length_app. reflexivity. }
  pose proof (both_seated_count l1 l2 ltac:(lia) ltac:(lia)) as Hc.
  rewrite Hl1 in Hc.
  rewrite (filter_ext_in _
             (fun i => both_seated (nth_error l1 i) (nth_error l2 i))).
  - rewrite Hbyes. lia.
  - intros i Hi. apply in_seq in Hi. rewrite Hteams.
    rewrite nth_error_app1 by lia. rewrite nth_error_app2 by lia.
    replace (i + half - length l1)%nat with i by lia. reflexivity.
Qed.

Lemma byes_perm l l' : Permutation l l' -> byes l = byes l'.
Proof.
  unfold byes. induction 1 as [|x l l' _ IH|x y l|l l' l'' _ IH1 _ IH2];
    cbn [filter].
  - reflexivity.
  - destruct (is_bye x); cbn [length]; rewrite IH; reflexivity.
  - destruct (is_bye x), (is_bye y); reflexivity.
  - congruence.
Qed.

Lemma first_leg_round_count n r teams date acc w teams' date' acc' w' :
  first_leg_round n r (teams, date, acc) w = (Ok (teams', date', acc'), w') ->
  length teams = (2 * (n / 2))%nat -> (byes teams <= 1)%nat ->
  length acc' = (length acc + (n / 2 - byes teams))%nat.
Proof.
  unfold first_leg_round. rewrite (bind_write _ _ _ w). cbv zeta.
  unfold bind.
  destruct (for_each _ _ acc _) as [[acc1|e] w1] eqn:E1; [|discriminate].
  destruct (rotate teams w1) as [[teams1|e] w2]; [|discriminate].
  intros [= _ _ <- _] Hlen Hb.
  apply pair_loop_count in E1. unfold range in E1.
  rewrite Nat2Z.id in E1.
  rewrite (seats_split_count teams (n / 2) Hlen Hb) in E1. exact E1.
Qed.

Lemma first_leg_loop_count n xs : forall teams date acc w teams' date' acc' w',
  for_each xs (first_leg_round n) (teams, date, acc) w
  = (Ok (teams', date', acc'), w') ->
  length teams = (2 * (n / 2))%nat -> (byes teams <= 1)%nat ->
  length acc' = (length acc + length xs * (n / 2 - byes teams))%nat.
Proof.
  induction xs as [|r xs IH]; intros teams date acc w teams' date' acc' w';
    cbn [for_each].
  - intros [= _ _ <- _] _ _. cbn. lia.
  - unfold bind.
    destruct (first_leg_round n r (teams, date, acc) w)
      as [[[[teams1 date1] acc1]|e] w1] eqn:E; [|discriminate].
    intros H Hlen Hb.
    pose proof (first_leg_round_count _ _ _ _ _ _ _ _ _ _ E Hlen Hb) as Hc.
    apply first_leg_round_inv in E. destruct E as (Hperm & _).
    apply IH in H.
    + rewrite <- (byes_perm _ _ Hperm) in H. cbn [length]. lia.
    + rewrite <- (Permutation_length Hperm). exact Hlen.
    + rewrite <- (byes_perm _ _ Hperm). exact Hb.
Qed.

Lemma byes_map_Some ts : byes (map Some ts) = 0%nat.
Proof.
  unfold byes. induction ts as [|t ts IH]; [reflexivity | exact IH].
Qed.

(** The seat list of [N] teams: [N] seats and no bye when [N] is even,
    [N + 1] seats and one bye when it is odd. *)
Lemma seats_shape ts :
  let N := length ts in
  (N mod 2 = 0 /\ length (seats ts) = N /\ byes (seats ts) = 0)%nat \/
  (N mod 2 = 1 /\ length (seats ts) = N + 1 /\ byes (seats ts) = 1)%nat.
Proof.
  intros N. unfold seats. fold N.
  destruct (Nat.eqb_spec (N mod 2) 0) as [E|E]; cbn [negb].
  - left. rewrite length_map, byes_map_Some. auto.
  - right. pose proof (Nat.mod_upper_bound N 2 ltac:(lia)).
    split; [lia|]. rewrite length_app, length_map. split; [reflexivity|].
    unfold byes. rewrite filter_app, length_app.
    fold (byes (map Some ts)). rewrite byes_map_Some. reflexivity.
Qed.

(** X11.  From [N] teams the command generates [N (N - 1)] fixtures when
    [N] is more than two, and the single fixture of the first leg when
    there are two teams. *)
Theorem fixtures_number (today : Z) (w : World) :
  let N := length (team_table (db w)) in
  (2 <= N)%nat ->
  exists all w1,
    generate today w = (Ok all, w1) /\
    (N = 2%nat -> length all = 1%nat) /\
    ((2 < N)%nat -> length all = (N * (N - 1))%nat).
Proof.
  intros N Hlen.
  destruct (generate_ok today w Hlen) as (all & w1 & Hgen & _).
  exists all, w1. split; [exact Hgen|].
  destruct (generate_inv _ _ _ _ Hgen) as (Hts & leg1 & w0 & w0' & E1 & ->).
  set (ts := Team_order_by_pk (db w)) in *.
  assert (HN : length ts = N) by apply Team_order_by_pk_length.
  unfold generate_first_leg, bind in E1.
  destruct (for_each _ _ _ w0) as [[[[teams' date'] acc']|e] w2] eqn:E;
    [|discriminate].
  injection E1 as <- _. cbn [snd].
  pose proof (Nat.div_mod_eq N 2) as Hdiv.
  pose proof (Nat.div_mod_eq (length (seats ts)) 2) as Hdiv'.
  assert (Hleg1 : (2 * length acc' = N * (N - 1))%nat).
  { destruct (seats_shape ts) as [(Hm & Hn & Hb)|(Hm & Hn & Hb)];
      rewrite HN in Hm, Hn.
    - apply first_leg_loop_count in E;
        [|rewrite Hn; lia | rewrite Hb; lia].
      unfold range in E. rewrite length_seq, Hb, Hn in E.
      cbn [length] in E.
      replace (Z.to_nat (Z.of_nat N - 1)) with (N - 1)%nat in E by lia.
      rewrite E. nia.
    - assert (Hn2 : ((N + 1) mod 2 = 0)%nat).
      { rewrite Nat.Div0.add_mod, Hm. reflexivity. }
      rewrite Hn in Hdiv'.
      apply first_leg_loop_count in E;
        [|rewrite Hn; lia | rewrite Hb; lia].
      unfold range in E. rewrite length_seq, Hb, Hn in E.
      cbn [length] in E.
      replace (Z.to_nat (Z.of_nat (N + 1) - 1)) with N in E by lia.
      rewrite E. nia. }
  rewrite HN. split.
  - intros HN2. rewrite HN2 in *. cbn. cbn in Hleg1. lia.
  - intros HN2. apply Nat.ltb_lt in HN2. rewrite HN2.
    rewrite length_app, length_map. lia.
Qed.

Lemma fixtures_number_witness :
  exists all w1,
    generate 100 (league [tA; tB; tC; tD; tE]) = (Ok all, w1) /\
    length all = 20%nat.
Proof.
  destruct (fixtures_number 100 (league [tA; tB; tC; tD; tE]))
    as (all & w1 & Hgen & _ & Hn).
  - cbn. lia.
  - exists all, w1. split; [exact Hgen|]. apply Hn. cbn. lia.
Defined.

(** ** The admin's [save_model] *)

Lemma Match_save_ok db_fault self w row w' :
  Match_save db_fault self w = (Ok row, w') ->
  (exists k, match_pk row = Some k) /\
  In row (match_table (db w')) /\
  set_match_pk row None
  = set_match_pk (Match_set_played_from_scores self) None.
Proof.
  intros H. split; [|split; [|eapply Match_save_row; exact H]];
    revert H; unfold Match_save, Model_save;
    (destruct (db_fault _ _); [discriminate|]);
    destruct (match_pk (Match_set_played_from_scores self)) as [k|] eqn:Hpk.
  - destruct (existsb _ _); intros [= <- _]; exists k; exact Hpk.
  - intros [= <- _]. eexists. reflexivity.
  - destruct (existsb _ _) eqn:Hex; intros [= <- <-]; cbn.
    + apply update_row_In, Hex.
    + apply in_or_app. right. left. reflexivity.
  - intros [= <- <-]. cbn. apply in_or_app. right. left. reflexivity.
Qed.

Lemma find_has_pk k table row :
  In row table -> match_pk row = Some k ->
  exists row0, find (has_pk k) table = Some row0.
Proof.
  intros Hin Hpk. destruct (find (has_pk k) table) as [row0|] eqn:E.
  - exists row0. reflexivity.
  - pose proof (find_none _ _ E row Hin) as H.
    unfold has_pk in H. rewrite Hpk, Z.eqb_refl in H. discriminate.
Qed.

Lemma update_scores_In db_fault k h a w w' row :
  Match_update_scores db_fault (Some k) h a w = (Ok tt, w') ->
  In row (match_table (db w)) -> match_pk row = Some k ->
  In (set_scores row h a) (match_table (db w')).
Proof.
  intros H Hin Hpk. unfold Match_update_scores in H.
  destruct (find_has_pk k _ row Hin Hpk) as (row0 & E). rewrite E in H.
  destruct (db_fault _ _); [discriminate|]. injection H as <-.
  cbn. apply in_map_iff. exists row. split; [|exact Hin].
  unfold has_pk. rewrite Hpk, Z.eqb_refl. reflexivity.
Qed.

Lemma goals_count_same goal_table m1 m2 team :
  match_pk m1 = match_pk m2 ->
  goals_count goal_table m1 team = goals_count goal_table m2 team.
Proof. intros H. unfold goals_count. rewrite H. reflexivity. Qed.

(** What a successful [save_model] returns and stores. *)
Lemma save_model_inv db_fault goal_table obj w obj' w' :
  save_model db_fault goal_table obj w = (Ok obj', w') ->
  In obj' (match_table (db w')) /\
  (exists k, match_pk obj' = Some k) /\
  home_team obj' = home_team obj /\ away_team obj' = away_team obj /\
  home_score obj' = goals_count goal_table obj' (home_team obj') /\
  away_score obj' = goals_count goal_table obj' (away_team obj') /\
  is_played obj' = is_played (Match_set_played_from_scores obj).
Proof.
  unfold save_model, bind.
  destruct (Match_save db_fault obj w) as [[obj1|e] w1] eqn:E1;
    [|discriminate].
  destruct (Match_save_ok _ _ _ _ _ E1) as ((k & Hk) & Hin & Hrow).
  assert (Hfields : home_team obj1 = home_team obj /\
                    away_team obj1 = away_team obj /\
                    is_played obj1
                    = is_played (Match_set_played_from_scores obj)).
  { destruct (set_played_from_scores_fields obj) as (_ & Hh & Ha & _).
    cbv zeta in Hh, Ha. rewrite <- Hh, <- Ha.
    destruct obj1, (Match_set_played_from_scores obj).
    cbn in Hrow |- *. injection Hrow as -> -> -> -> -> ->. auto. }
  destruct Hfields as (Hh & Ha & Hp).
  cbv zeta.
  destruct (negb (home_score obj1 =? _) || negb (away_score obj1 =? _))
    eqn:Hcmp.
  - cbn [match_pk set_scores]. rewrite Hk.
    destruct (Match_update_scores db_fault (Some k) _ _ w1)
      as [[[]|e] w2] eqn:E2; [|discriminate].
    intros [= <- <-].
    split; [eapply update_scores_In; eassumption|].
    split; [exists k; exact Hk|].
    cbn [set_scores home_team away_team home_score away_score is_played].
    repeat split; try assumption;
      apply goals_count_same; reflexivity.
  - intros [= <- <-]. apply orb_false_iff in Hcmp.
    destruct Hcmp as [H1 H2].
    apply negb_false_iff, Z.eqb_eq in H1, H2.
    repeat split; try assumption. exists k; exact Hk.
Qed.

(** X12.  After a successful [save_model] the stored match carries the
    number of goals recorded for each side as its scores, but its
    [is_played] is still the one computed from the scores it had before the
    recount: a match that had no score keeps [is_played] false even when
    goals are now counted for it. *)
Theorem save_model_scores_and_flag
        (db_fault : DB -> Match -> option string) (goal_table : list Goal)
        (obj obj' : Match) (w w' : World) :
  save_model db_fault goal_table obj w = (Ok obj', w') ->
  In obj' (match_table (db w')) /\
  home_score obj' = goals_count goal_table obj' (home_team obj) /\
  away_score obj' = goals_count goal_table obj' (away_team obj) /\
  (is_played obj' = true <-> (home_score obj > 0 \/ away_score obj > 0)).
Proof.
  intros H. apply save_model_inv in H.
  destruct H as (Hin & _ & Hh & Ha & Hhs & Has & Hp).
  rewrite Hh in Hhs. rewrite Ha in Has.
  repeat split; try assumption; rewrite Hp;
    apply set_played_from_scores_iff.
Qed.

Lemma save_model_scores_and_flag_witness :
  exists obj' w',
    save_model no_fault [mkGoal 1 tA]
               (new_Match tA tB (start_date 100) false) (league [tA; tB])
    = (Ok obj', w') /\
    In obj' (match_table (db w')) /\
    home_score obj' = 1 /\ is_played obj' = false.
Proof.
  eexists. eexists. split; [vm_compute; reflexivity|].
  destruct (save_model_scores_and_flag no_fault [mkGoal 1 tA]
              (new_Match tA tB (start_date 100) false) _
              (league [tA; tB]) _ eq_refl) as (Hin & Hh & _ & _).
  split; [exact Hin|]. split; reflexivity.
Defined.

(** X13.  Saving the same match through [save_model] once more, with the
    goals unchanged, brings the flag back in line: the stored match then
    has [is_played] true exactly when one of its scores, still the goal
    counts, is positive. *)
Theorem save_model_twice
        (db_fault : DB -> Match -> option string) (goal_table : list Goal)
        (obj obj1 obj2 : Match) (w w1 w2 : World) :
  save_model db_fault goal_table obj w = (Ok obj1, w1) ->
  save_model db_fault goal_table obj1 w1 = (Ok obj2, w2) ->
  In obj2 (match_table (db w2)) /\
  match_pk obj2 = match_pk obj1 /\
  home_score obj2 = goals_count goal_table obj2 (home_team obj) /\
  away_score obj2 = goals_count goal_table obj2 (away_team obj) /\
  (is_played obj2 = true <-> (home_score obj2 > 0 \/ away_score obj2 > 0)).
Proof.
  intros H1 H2. apply save_model_inv in H1.
  destruct H1 as (_ & (k & Hk) & Hh1 & Ha1 & Hhs1 & Has1 & _).
  pose proof (save_model_inv _ _ _ _ _ _ H2)
    as (Hin & _ & Hh2 & Ha2 & Hhs2 & Has2 & Hp2).
  assert (Hpk : match_pk obj2 = match_pk obj1).
  { revert H2. unfold save_model, bind.
    destruct (Match_save db_fault obj1 w1) as [[o|e] wa] eqn:E;
      [|discriminate].
    assert (Ho : match_pk o = match_pk obj1).
    { revert E. unfold Match_save, Model_save.
      destruct (db_fault _ _); [discriminate|].
      rewrite set_played_from_scores_pk, Hk.
      destruct (existsb _ _); intros [= <- _];
        rewrite set_played_from_scores_pk; exact Hk. }
    cbv zeta. destruct (_ || _).
    - destruct (Match_update_scores _ _ _ _ wa) as [[[]|e] wb];
        [|discriminate].
      intros [= <- _]. exact Ho.
    - intros [= <- _]. exact Ho. }
  split; [exact Hin|]. split; [exact Hpk|].
  rewrite Hh2, Hh1 in Hhs2. rewrite Ha2, Ha1 in Has2.
  split; [exact Hhs2|]. split; [exact Has2|].
  rewrite Hp2, set_played_from_scores_iff.
  rewrite Hhs2, Has2, Hhs1, Has1, Hh1, Ha1.
  rewrite (goals_count_same goal_table obj2 obj1 _ Hpk).
  rewrite (goals_count_same goal_table obj2 obj1 _ Hpk).
  reflexivity.
Qed.

Lemma save_model_twice_witness :
  exists obj1 w1 obj2 w2,
    save_model no_fault [mkGoal 1 tA]
               (new_Match tA tB (start_date 100) false) (league [tA; tB])
    = (Ok obj1, w1) /\
    save_model no_fault [mkGoal 1 tA] obj1 w1 = (Ok obj2, w2) /\
    is_played obj1 = false /\ is_played obj2 = true /\
    In obj2 (match_table (db w2)).
Proof.
  pose (obj := new_Match tA tB (start_date 100) false).
  pose (r1 := save_model no_fault [mkGoal 1 tA] obj (league [tA; tB])).
  pose (obj1 := match fst r1 with Ok o => o | Raise _ => obj end).
  pose (r2 := save_model no_fault [mkGoal 1 tA] obj1 (snd r1)).
  pose (obj2 := match fst r2 with Ok o => o | Raise _ => obj end).
  assert (H1 : save_model no_fault [mkGoal 1 tA] obj (league [tA; tB])
               = (Ok obj1, snd r1)) by (vm_compute; reflexivity).
  assert (H2 : save_model no_fault [mkGoal 1 tA] obj1 (snd r1)
               = (Ok obj2, snd r2)) by (vm_compute; reflexivity).
  exists obj1, (snd r1), obj2, (snd r2).
  split; [exact H1|]. split; [exact H2|].
  split; [vm_compute; reflexivity|]. split; [vm_compute; reflexivity|].
  apply (save_model_twice no_fault [mkGoal 1 tA] obj obj1 obj2
           (league [tA; tB]) (snd r1) (snd r2) H1 H2).
Defined.

(** ** The table balances *)

Lemma zsum_cons {A} (f : A -> Z) x l : zsum f (x :: l) = f x + zsum f l.
Proof. reflexivity. Qed.

Lemma zsum_add {A} (f g : A -> Z) l :
  zsum (fun x => f x + g x) l = zsum f l + zsum g l.
Proof.
  induction l as [|x l IH]; [reflexivity|].
  rewrite !zsum_cons, IH. lia.
Qed.

Lemma zsum_ext_in {A} (f g : A -> Z) l :
  (forall x, In x l -> f x = g x) -> zsum f l = zsum g l.
Proof.
  induction l as [|x l IH]; intros H; [reflexivity|].
  rewrite !zsum_cons, (H x (or_introl eq_refl)), IH; [reflexivity|].
  intros y Hy. apply H. right. exact Hy.
Qed.

Lemma zsum_zero {A} (f : A -> Z) l :
  (forall x, In x l -> f x = 0) -> zsum f l = 0.
Proof.
  induction l as [|x l IH]; intros H; [reflexivity|].
  rewrite zsum_cons, (H x (or_introl eq_refl)), IH; [reflexivity|].
  intros y Hy. apply H. right. exact Hy.
Qed.

Lemma zsum_filter {A} (p : A -> bool) (f : A -> Z) l :
  zsum f (filter p l) = zsum (fun x => if p x then f x else 0) l.
Proof.
  induction l as [|x l IH]; [reflexivity|].
  cbn [filter]. rewrite zsum_cons.
  destruct (p x); rewrite ?zsum_cons, IH; reflexivity.
Qed.

Lemma zsum_swap {A B} (g : A -> B -> Z) la lb :
  zsum (fun a => zsum (g a) lb) la = zsum (fun b => zsum (fun a => g a b) la) lb.
Proof.
  induction la as [|a la IH].
  - symmetry. apply zsum_zero. reflexivity.
  - rewrite zsum_cons, IH, <- zsum_add. reflexivity.
Qed.

Lemma zsum_perm {A} (f : A -> Z) l l' :
  Permutation l l' -> zsum f l = zsum f l'.
Proof.
  induction 1 as [|x l l' _ IH|x y l|l l' l'' _ IH1 _ IH2];
    rewrite ?zsum_cons;
    [reflexivity | rewrite IH; reflexivity | lia | congruence].
Qed.

Lemma zsum_map {A B} (f : B -> Z) (g : A -> B) l :
  zsum f (map g l) = zsum (fun x => f (g x)) l.
Proof.
  induction l as [|x l IH]; [reflexivity|].
  cbn [map]. rewrite !zsum_cons, IH. reflexivity.
Qed.

(** Over teams with distinct keys, a value attached to one key is counted
    once. *)
Lemma zsum_one_key ts k u :
  NoDup (map team_pk ts) -> In k (map team_pk ts) ->
  zsum (fun t => if k =? team_pk t then u else 0) ts = u.
Proof.
  induction ts as [|t ts IH]; intros Hnd Hin; [destruct Hin|].
  cbn [map] in Hnd, Hin. inversion Hnd as [|? ? Hnot Hnd']; subst.
  rewrite zsum_cons.
  destruct (Z.eqb_spec k (team_pk t)) as [->|Hne].
  - rewrite zsum_zero; [lia|].
    intros x Hx. destruct (Z.eqb_spec (team_pk t) (team_pk x)) as [E|_];
      [|reflexivity].
    exfalso. apply Hnot. rewrite E. apply in_map, Hx.
  - rewrite IH; [lia | exact Hnd'|].
    destruct Hin as [Hin|Hin]; [congruence | exact Hin].
Qed.

Lemma zsum_two_sides ts m u v :
  NoDup (map team_pk ts) -> sound_match ts m ->
  zsum (fun t => if Team_eq (home_team m) t then u
                 else if Team_eq (away_team m) t then v else 0) ts
  = u + v.
Proof.
  intros Hnd (Hh & Ha & Hne).
  rewrite <- (zsum_one_key ts (team_pk (home_team m)) u Hnd Hh) at 1.
  rewrite <- (zsum_one_key ts (team_pk (away_team m)) v Hnd Ha) at 1.
  rewrite <- zsum_add. apply zsum_ext_in. intros t _. unfold Team_eq.
  destruct (Z.eqb_spec (team_pk (home_team m)) (team_pk t)) as [E|_];
    [|reflexivity].
  destruct (Z.eqb_spec (team_pk (away_team m)) (team_pk t)) as [E'|_];
    [congruence | lia].
Qed.

Lemma tally_adds team stats m :
  let r := tally team stats m in
  s_GF r = s_GF stats + goals_for team m /\
  s_GA r = s_GA stats + goals_against team m /\
  s_W r = s_W stats
          + (if goals_for team m >? goals_against team m then 1 else 0) /\
  s_L r = s_L stats
          + (if goals_for team m <? goals_against team m then 1 else 0).
Proof.
  unfold tally, goals_for, goals_against.
  destruct (Team_eq (home_team m) team);
    match goal with
    | |- context [?a >? ?b] =>
        destruct (Z.gtb_spec a b), (Z.eqb_spec a b), (Z.ltb_spec a b)
    end;
    cbn [s_GF s_GA s_W s_L]; repeat split; lia.
Qed.

Lemma fold_tally_adds team ms : forall stats,
  let r := fold_left (tally team) ms stats in
  s_GF r = s_GF stats + zsum (goals_for team) ms /\
  s_GA r = s_GA stats + zsum (goals_against team) ms /\
  s_W r = s_W stats
          + zsum (fun m => if goals_for team m >? goals_against team m
                           then 1 else 0) ms /\
  s_L r = s_L stats
          + zsum (fun m => if goals_for team m <? goals_against team m
                           then 1 else 0) ms.
Proof.
  induction ms as [|m ms IH]; intros stats; cbn [fold_left].
  - cbv zeta. unfold zsum. cbn [fold_right]. lia.
  - specialize (IH (tally team stats m)). cbv zeta in IH.
    pose proof (tally_adds team stats m) as Hs. cbv zeta in Hs.
    rewrite !zsum_cons. lia.
Qed.

(** The column [col] of the unsorted rows, summed, is the sum over the
    matches of what each team draws from the match. *)
Lemma column_total d (col : Stats -> Z) (c : Team -> Match -> Z) :
  (forall t, col (row_of d t) = zsum (c t) (Match_all_played t d)) ->
  zsum col (unsorted_rows d)
  = zsum (fun m => zsum (fun t => if played_by t m then c t m else 0)
                        (Team_default_order d))
         (Match_default_order d).
Proof.
  intros Hcol. unfold unsorted_rows. rewrite zsum_map.
  rewrite <- zsum_swap. apply zsum_ext_in. intros t _.
  rewrite Hcol. unfold Match_all_played. apply zsum_filter.
Qed.

Lemma row_of_columns d t :
  s_GF (row_of d t) = zsum (goals_for t) (Match_all_played t d) /\
  s_GA (row_of d t) = zsum (goals_against t) (Match_all_played t d) /\
  s_W (row_of d t)
  = zsum (fun m => if goals_for t m >? goals_against t m then 1 else 0)
         (Match_all_played t d) /\
  s_L (row_of d t)
  = zsum (fun m => if goals_for t m <? goals_against t m then 1 else 0)
         (Match_all_played t d).
Proof.
  unfold row_of, team_row, set_GD.
  cbn [s_GF s_GA s_W s_L].
  pose proof (fold_tally_adds t (Match_all_played t d)
                (mkStats t (Z.of_nat (length (Match_all_played t d)))
                         0 0 0 0 0 0 0)) as H.
  cbv zeta in H. cbn [s_GF s_GA s_W s_L] in H. lia.
Qed.

Lemma match_terms_balance ts m (c1 c2 : Team -> Match -> Z) u v u' v' :
  NoDup (map team_pk ts) ->
  (is_played m = true -> sound_match ts m) ->
  (forall t, Team_eq (home_team m) t = true -> c1 t m = u /\ c2 t m = u') ->
  (forall t, Team_eq (home_team m) t = false -> c1 t m = v /\ c2 t m = v') ->
  u + v = u' + v' ->
  zsum (fun t => if played_by t m then c1 t m else 0) ts
  = zsum (fun t => if played_by t m then c2 t m else 0) ts.
Proof.
  intros Hnd Hsound Hhome Haway Heq.
  destruct (is_played m) eqn:Hp.
  - transitivity (u + v).
    + rewrite <- (zsum_two_sides ts m u v Hnd (Hsound eq_refl)).
      apply zsum_ext_in. intros t _. unfold played_by. rewrite Hp, !andb_true_r.
      destruct (Team_eq (home_team m) t) eqn:E; cbn [orb].
      * apply Hhome, E.
      * destruct (Team_eq (away_team m) t); [apply Haway, E | reflexivity].
    + rewrite Heq.
      rewrite <- (zsum_two_sides ts m u' v' Hnd (Hsound eq_refl)).
      apply zsum_ext_in. intros t _. unfold played_by. rewrite Hp, !andb_true_r.
      destruct (Team_eq (home_team m) t) eqn:E; cbn [orb].
      * symmetry. apply Hhome, E.
      * destruct (Team_eq (away_team m) t); [symmetry; apply Haway, E
                                            | reflexivity].
  - apply zsum_ext_in. intros t _. unfold played_by.
    rewrite Hp, !andb_false_r. reflexivity.
Qed.

Lemma zsum_row_GD d ts :
  zsum (fun t => s_GD (row_of d t)) ts
  = zsum (fun t => s_GF (row_of d t)) ts
    - zsum (fun t => s_GA (row_of d t)) ts.
Proof.
  induction ts as [|t ts IH]; [reflexivity|].
  rewrite !zsum_cons, IH.
  destruct (row_of_laws d t) as (_ & _ & -> & _). lia.
Qed.

(** X14.  When the teams have distinct keys and every played match is
    between two different teams of the table, the table balances: the
    goals scored add up to the goals conceded, the wins to the losses, and
    the goal differences to zero. *)
Theorem standings_balance (w : World) :
  NoDup (map team_pk (team_table (db w))) ->
  Forall (fun m => is_played m = true -> sound_match (team_table (db w)) m)
         (match_table (db w)) ->
  exists rows,
    get_standings w = (Ok rows, w) /\
    zsum s_GF rows = zsum s_GA rows /\
    zsum s_W rows = zsum s_L rows /\
    zsum s_GD rows = 0.
Proof.
  intros Hnd Hsound.
  eexists. split; [apply get_standings_eq|].
  set (d := db w) in *.
  assert (Hperm : Permutation (sort_reverse sort_key (unsorted_rows d))
                              (unsorted_rows d)) by apply stable_sort_perm.
  rewrite !(zsum_perm _ _ _ Hperm).
  assert (Hts : Permutation (Team_default_order d) (team_table d))
    by apply stable_sort_perm.
  assert (Hnd' : NoDup (map team_pk (Team_default_order d))).
  { apply (Permutation_NoDup
             (Permutation_map team_pk (Permutation_sym Hts))), Hnd. }
  assert (Hsound' : forall m, In m (Match_default_order d) ->
                    is_played m = true ->
                    sound_match (Team_default_order d) m).
  { intros m Hm Hp. apply stable_sort_In in Hm.
    rewrite Forall_forall in Hsound.
    destruct (Hsound m Hm Hp) as (Hh & Ha & Hne).
    pose proof (Permutation_map team_pk (Permutation_sym Hts)) as Hk.
    repeat split; try assumption; eapply Permutation_in; eassumption. }
  assert (HGF : zsum s_GF (unsorted_rows d) = zsum s_GA (unsorted_rows d)).
  { rewrite (column_total d s_GF goals_for)
      by (intros t; apply row_of_columns).
    rewrite (column_total d s_GA goals_against)
      by (intros t; apply row_of_columns).
    apply zsum_ext_in. intros m Hm.
    apply (match_terms_balance _ m goals_for goals_against
             (home_score m) (away_score m) (away_score m) (home_score m));
      [exact Hnd' | apply Hsound', Hm | | | lia];
      intros t E; unfold goals_for, goals_against; rewrite E; auto. }
  split; [exact HGF|]. split.
  - rewrite (column_total d s_W
               (fun t m => if goals_for t m >? goals_against t m
                           then 1 else 0))
      by (intros t; apply row_of_columns).
    rewrite (column_total d s_L
               (fun t m => if goals_for t m <? goals_against t m
                           then 1 else 0))
      by (intros t; apply row_of_columns).
    apply zsum_ext_in. intros m Hm.
    apply (match_terms_balance _ m
             (fun t m => if goals_for t m >? goals_against t m then 1 else 0)
             (fun t m => if goals_for t m <? goals_against t m then 1 else 0)
             (if home_score m >? away_score m then 1 else 0)
             (if away_score m >? home_score m then 1 else 0)
             (if home_score m <? away_score m then 1 else 0)
             (if away_score m <? home_score m then 1 else 0));
      [exact Hnd' | apply Hsound', Hm | | |];
      try (intros t E; unfold goals_for, goals_against; rewrite E; auto).
    rewrite !Z.gtb_ltb. lia.
  - assert (HGD : zsum s_GD (unsorted_rows d)
                  = zsum s_GF (unsorted_rows d)
                    - zsum s_GA (unsorted_rows d)).
    { unfold unsorted_rows. rewrite !zsum_map. apply zsum_row_GD. }
    rewrite HGD, HGF. lia.
Qed.

Lemma standings_balance_witness :
  exists rows,
    get_standings played_league = (Ok rows, played_league) /\
    zsum s_GF rows = zsum s_GA rows /\
    zsum s_GF rows = 3.
Proof.
  destruct (standings_balance played_league)
    as (rows & Hget & Hgoals & _).
  - cbn. repeat constructor; cbn; intuition discriminate.
  - cbn. constructor; [|constructor]. intros _.
    repeat split; cbn; auto. discriminate.
  - exists rows. split; [exact Hget|]. split; [exact Hgoals|].
    rewrite get_standings_eq in Hget. injection Hget as <-.
    vm_compute. reflexivity.
Defined.

(** ** One fixture a day *)

Lemma filter_unique {A} (p : A -> bool) l :
  NoDup l ->
  (forall x y, In x l -> In y l -> p x = true -> p y = true -> x = y) ->
  (length (filter p l) <= 1)%nat.
Proof.
  induction 1 as [|x l Hx Hl IH]; intros Hu; [cbn; lia|].
  cbn [filter]. destruct (p x) eqn:Hpx.
  - rewrite filter_none; [cbn; lia|].
    intros y Hy. destruct (p y) eqn:Hpy; [|reflexivity].
    exfalso. apply Hx.
    rewrite (Hu x y (or_introl eq_refl) (or_intror Hy) Hpx Hpy). exact Hy.
  - apply IH. intros a b Ha Hb. apply Hu; right; assumption.
Qed.

Lemma seat_is_key t teams i :
  seat_is t teams i = true ->
  nth_error (map (option_map team_pk) teams) i = Some (Some (team_pk t)).
Proof.
  unfold seat_is. rewrite nth_error_map.
  destruct (nth_error teams i) as [[x|]|]; try discriminate.
  unfold Team_eq. intros H. apply Z.eqb_eq in H. cbn. rewrite H. reflexivity.
Qed.

Lemma seat_unique t teams i j :
  NoDup (map (option_map team_pk) teams) ->
  seat_is t teams i = true -> seat_is t teams j = true -> i = j.
Proof.
  intros Hnd Hi Hj. apply seat_is_key in Hi, Hj.
  rewrite NoDup_nth_error in Hnd. apply Hnd; [|congruence].
  apply nth_error_Some. rewrite Hi. discriminate.
Qed.

Lemma pair_seats_once t teams half date i acc w acc' w' :
  pair_seats teams half date i acc w = (Ok acc', w') ->
  exists new,
    acc' = acc ++ new /\
    Forall (fun m => match_date m = date) new /\
    (length (filter (plays t) new)
     <= if seat_is t teams i || seat_is t teams (i + half) then 1 else 0)%nat.
Proof.
  intros H. apply pair_seats_inv in H.
  destruct H as [->|(t1 & t2 & H1 & H2 & ->)].
  - exists []. rewrite app_nil_r. repeat split; [constructor | cbn; lia].
  - eexists. split; [reflexivity|]. split; [repeat constructor|].
    unfold seat_is. rewrite H1, H2. cbn [filter].
    unfold plays at 1. cbn [home_team away_team new_Match].
    destruct (Team_eq t1 t || Team_eq t2 t); cbn; lia.
Qed.

Lemma pair_loop_once t teams half date xs : forall acc w acc' w',
  for_each xs (pair_seats teams half date) acc w = (Ok acc', w') ->
  exists new,
    acc' = acc ++ new /\
    Forall (fun m => match_date m = date) new /\
    (length (filter (plays t) new)
     <= length (filter (fun i => seat_is t teams i
                                 || seat_is t teams (i + half)) xs))%nat.
Proof.
  induction xs as [|i xs IH]; intros acc w acc' w'; cbn [for_each].
  - intros [= <- _]. exists []. rewrite app_nil_r.
    repeat split; [constructor | cbn; lia].
  - unfold bind.
    destruct (pair_seats teams half date i acc w) as [[acc1|e] w1] eqn:E;
      [|discriminate].
    intros H. apply IH in H. destruct H as (new2 & -> & Hd2 & Hc2).
    apply (pair_seats_once t) in E. destruct E as (new1 & -> & Hd1 & Hc1).
    exists (new1 ++ new2). rewrite app_assoc. split; [reflexivity|].
    split; [apply Forall_app; split; assumption|].
    rewrite filter_app, length_app. cbn [filter].
    destruct (seat_is t teams i || seat_is t teams (i + half));
      cbn [length]; lia.
Qed.

(** In one round a team plays at most once, and the matches of the round
    carry the date of the round. *)
Lemma round_once t n r teams date acc w teams' date' acc' w' :
  first_leg_round n r (teams, date, acc) w = (Ok (teams', date', acc'), w') ->
  NoDup (map (option_map team_pk) teams) ->
  exists new,
    acc' = acc ++ new /\
    Forall (fun m => match_date m = date') new /\
    (length (filter (plays t) new) <= 1)%nat.
Proof.
  unfold first_leg_round. rewrite (bind_write _ _ _ w). cbv zeta.
  unfold bind.
  destruct (for_each _ _ acc _) as [[acc1|e] w1] eqn:E1; [|discriminate].
  destruct (rotate teams w1) as [[teams1|e] w2]; [|discriminate].
  intros [= _ <- <- _] Hnd.
  apply (pair_loop_once t) in E1. destruct E1 as (new & -> & Hd & Hc).
  exists new. split; [reflexivity|]. split; [exact Hd|].
  eapply Nat.le_trans; [exact Hc|].
  unfold range. rewrite Nat2Z.id.
  apply filter_unique; [apply seq_NoDup|].
  intros x y Hx Hy Hpx Hpy. apply in_seq in Hx, Hy.
  apply orb_true_iff in Hpx, Hpy.
  destruct Hpx as [Hpx|Hpx], Hpy as [Hpy|Hpy];
    pose proof (seat_unique t teams _ _ Hnd Hpx Hpy); lia.
Qed.

Lemma fixtures_on_app t d l1 l2 :
  fixtures_on t d (l1 ++ l2)
  = (fixtures_on t d l1 + fixtures_on t d l2)%nat.
Proof. unfold fixtures_on. rewrite filter_app, length_app. reflexivity. Qed.

Lemma fixtures_on_other_day t d l :
  Forall (fun m => dt_day (match_date m) <> d) l -> fixtures_on t d l = 0%nat.
Proof.
  intros H. unfold fixtures_on. rewrite filter_none; [reflexivity|].
  intros m Hm. rewrite Forall_forall in H.
  apply andb_false_iff. right. apply Z.eqb_neq, H, Hm.
Qed.

Lemma fixtures_on_le_plays t d l :
  (fixtures_on t d l <= length (filter (plays t) l))%nat.
Proof.
  unfold fixtures_on. induction l as [|m l IH]; [cbn; lia|].
  cbn [filter]. destruct (plays t m); cbn [andb];
    [destruct (_ =? _)|]; cbn [length]; lia.
Qed.

(** The rounds from round [a] on: before them every match is dated from
    the start day [s] up to the week before round [a], and [t] plays at
    most once a day; the same holds after them. *)
Lemma first_leg_loop_once t n s len :
  forall a teams date acc w teams' date' acc' w',
    for_each (seq a len) (first_leg_round n) (teams, date, acc) w
    = (Ok (teams', date', acc'), w') ->
    NoDup (map (option_map team_pk) teams) ->
    dt_day date = s + 7 * Z.max 0 (Z.of_nat a - 1) ->
    Forall (fun m => s <= dt_day (match_date m) < s + 7 * Z.of_nat a) acc ->
    (forall d, (fixtures_on t d acc <= 1)%nat) ->
    Forall (fun m => s <= dt_day (match_date m)
                     < s + 7 * Z.of_nat (a + len)) acc' /\
    (forall d, (fixtures_on t d acc' <= 1)%nat).
Proof.
  induction len as [|len IH];
    intros a teams date acc w teams' date' acc' w'; cbn [seq for_each].
  - intros [= _ _ <- _] _ _ Hacc Hone. rewrite Nat.add_0_r. auto.
  - unfold bind.
    destruct (first_leg_round n a (teams, date, acc) w)
      as [[[[teams1 date1] acc1]|e] w1] eqn:E; [|discriminate].
    intros H Hnd Hdate Hacc Hone.
    destruct (round_once t _ _ _ _ _ _ _ _ _ _ E Hnd)
      as (new & -> & Hnew & Hplays).
    apply first_leg_round_inv in E. destruct E as (Hperm & Hd1 & _).
    assert (Hday1 : dt_day date1 = s + 7 * Z.of_nat a).
    { rewrite Hd1. destruct a as [|a]; cbn [Nat.ltb Nat.leb].
      - rewrite Hdate. cbn. lia.
      - unfold add_days, days_between_weeks. cbn [dt_day]. lia. }
    replace (a + S len)%nat with (S a + len)%nat by lia.
    apply (IH (S a) teams1 date1 (acc ++ new) w1 _ _ _ _ H).
    + exact (Permutation_NoDup
               (Permutation_map (option_map team_pk) Hperm) Hnd).
    + rewrite Hday1. lia.
    + apply Forall_app. split.
      * eapply Forall_impl; [|exact Hacc]. cbv beta. intros m Hm. lia.
      * eapply Forall_impl; [|exact Hnew]. cbv beta. intros m ->. lia.
    + intros d. rewrite fixtures_on_app.
      destruct (Z.eq_dec d (s + 7 * Z.of_nat a)) as [->|Hne].
      * rewrite (fixtures_on_other_day t _ acc).
        -- pose proof (fixtures_on_le_plays t (s + 7 * Z.of_nat a) new). lia.
        -- eapply Forall_impl; [|exact Hacc]. cbv beta. intros m Hm. lia.
      * rewrite (fixtures_on_other_day t d new).
        -- specialize (Hone d). lia.
        -- eapply Forall_impl; [|exact Hnew]. cbv beta. intros m ->. lia.
Qed.

Lemma plays_return t rounds m : plays t (return_match rounds m) = plays t m.
Proof. unfold plays, return_match. cbn. apply orb_comm. Qed.

Lemma fixtures_on_return t d rounds l :
  fixtures_on t d (map (return_match rounds) l)
  = fixtures_on t (d - rounds * days_between_weeks) l.
Proof.
  unfold fixtures_on. induction l as [|m l IH]; [reflexivity|].
  cbn [map filter]. rewrite plays_return.
  assert (E : (dt_day (match_date (return_match rounds m)) =? d)
              = (dt_day (match_date m) =? d - rounds * days_between_weeks)).
  { unfold return_match, add_days. cbn [match_date new_Match dt_day].
    destruct (Z.eqb_spec (dt_day (match_date m) + rounds * days_between_weeks) d),
      (Z.eqb_spec (dt_day (match_date m)) (d - rounds * days_between_weeks));
      try reflexivity; lia. }
  rewrite E.
  destruct (plays t m && _); cbn [length]; rewrite IH; reflexivity.
Qed.

(** X15.  When the teams have distinct keys, no team is given two
    fixtures on the same day, over both legs. *)
Theorem one_fixture_a_day (today : Z) (w : World) :
  (2 <= length (team_table (db w)))%nat ->
  NoDup (map team_pk (Team_order_by_pk (db w))) ->
  exists all w1,
    generate today w = (Ok all, w1) /\
    forall t d, (fixtures_on t d all <= 1)%nat.
Proof.
  intros Hlen Hnd.
  destruct (generate_ok today w Hlen) as (all & w1 & Hgen & _).
  exists all, w1. split; [exact Hgen|]. intros t d.
  destruct (generate_inv _ _ _ _ Hgen) as (Hts & leg1 & w0 & w0' & E1 & ->).
  set (ts := Team_order_by_pk (db w)) in *.
  set (R := Z.of_nat (length (seats ts)) - 1) in *.
  pose proof (seats_length_pos ts Hts) as HR. fold R in HR.
  unfold generate_first_leg, bind in E1.
  destruct (for_each _ _ _ w0) as [[[[teams' date'] acc']|e] w2] eqn:E;
    [|discriminate].
  injection E1 as <- _. cbn [snd]. unfold range in E.
  apply (first_leg_loop_once t _ (today + 1)) in E;
    [|apply seats_keys_NoDup, Hnd | cbn; lia | constructor
     |intros d0; cbn; lia].
  destruct E as (Hdays & Hone).
  rewrite Nat.add_0_l, Z2Nat.id in Hdays by lia.
  destruct (2 <? length ts)%nat; [|apply Hone].
  rewrite fixtures_on_app, fixtures_on_return.
  destruct (Z_lt_ge_dec d (today + 1 + 7 * R)) as [Hd|Hd].
  - rewrite (fixtures_on_other_day t (d - R * days_between_weeks) acc').
    + specialize (Hone d). lia.
    + eapply Forall_impl; [|exact Hdays]. cbv beta.
      unfold days_between_weeks. intros m Hm. lia.
  - rewrite (fixtures_on_other_day t d acc').
    + specialize (Hone (d - R * days_between_weeks)). lia.
    + eapply Forall_impl; [|exact Hdays]. cbv beta. intros m Hm. lia.
Qed.

Lemma one_fixture_a_day_witness :
  exists all w1,
    generate 100 (league [tA; tB; tC; tD; tE; tF]) = (Ok all, w1) /\
    forall t d, (fixtures_on t d all <= 1)%nat.
Proof.
  apply (one_fixture_a_day 100 (league [tA; tB; tC; tD; tE; tF])).
  - cbn. lia.
  - cbn. repeat constructor; cbn; intuition discriminate.
Defined.

(** ** A goalless match and the table *)

(** X16.  Saving a new match in which neither side has scored, whatever
    its [is_played] said, leaves the league table as it was: a goalless
    draw entered this way is not counted. *)
Theorem goalless_save_keeps_standings
        (db_fault : DB -> Match -> option string) (self : Match) (w : World) :
  match_pk self = None ->
  home_score self <= 0 -> away_score self <= 0 ->
  fst (get_standings (snd (Match_save db_fault self w)))
  = fst (get_standings w).
Proof.
  intros Hpk Hh Ha. rewrite !get_standings_eq. cbn [fst].
  do 2 f_equal. apply same_unsorted_rows;
    unfold Match_save, Model_save;
    (destruct (db_fault _ _); [reflexivity|]);
    rewrite set_played_from_scores_pk, Hpk; cbn [snd db team_table match_table];
    [reflexivity|].
  rewrite filter_app. cbn [filter set_match_pk is_played].
  assert (Hflag : is_played (Match_set_played_from_scores self) = false).
  { destruct (is_played (Match_set_played_from_scores self)) eqn:E;
      [|reflexivity].
    apply set_played_from_scores_iff in E. lia. }
  rewrite Hflag. apply app_nil_r.
Qed.

Lemma goalless_save_keeps_standings_witness :
  fst (get_standings
         (snd (Match_save no_fault (new_Match tB tA (start_date 100) true)
                          played_league)))
  = fst (get_standings played_league).
Proof.
  apply (goalless_save_keeps_standings no_fault); [reflexivity | |];
    cbn; lia.
Defined.
